(** * Verification of the WebRTC signaling / detection server (server/main.py)

    A shallow embedding of [src/server/main.py]: the peer-connection registry
    [pcs], the signaling handler [offer] with its two observers, the
    pass-through track [VideoTransformTrack], the detection handler
    [detect_objects] and the shutdown hook [shutdown_event].

    Collaborators that live outside the repository (aiortc, PIL, base64, the
    YOLO engine) are taken as parameters of the development; what the
    transport's own session-description constructor and [close()] do to a
    connection is written out, since the handlers' behaviour rests on it. *)

From Stdlib Require Import ZArith String Ascii List Bool Lia Permutation.
From Stdlib Require Import Floats.PrimFloat.
From stdpp Require Import base gmap sets list strings pretty.

Open Scope string_scope.

(** ** Python exceptions and results *)

(** An exception object: its class name and [str(e)]. *)
Record exn := Exception { exn_class : string; exn_str : string }.

(** The outcome of a Python expression: a value or a raised exception. *)
Inductive Exc (A : Type) : Type :=
| Ok (a : A)
| Raise (e : exn).
Arguments Ok {A} a.
Arguments Raise {A} e.

Definition exc_bind {A B} (m : Exc A) (k : A -> Exc B) : Exc B :=
  match m with
  | Ok a => k a
  | Raise e => Raise e
  end.

Definition IndexError : exn := Exception "IndexError" "list index out of range".
Definition NoneNotCallable : exn :=
  Exception "TypeError" "'NoneType' object is not callable".

(** ** Python string and list primitives used by the handlers *)

Module Py.

(** [sub in s]: does [sub] occur in [s] as a substring. *)
Fixpoint contains (sub s : string) : bool :=
  String.prefix sub s ||
  match s with
  | EmptyString => false
  | String _ s' => contains sub s'
  end.

(** The worker of [s.split(sep)] for a non-empty [sep]: [skip] characters of
    a separator just matched are still to be dropped, [cur] is the piece
    read so far. Matches are taken left to right and do not overlap. *)
Fixpoint split_go (sep : string) (skip : nat) (cur s : string) : list string :=
  match s with
  | EmptyString => [cur]
  | String c s' =>
      match skip with
      | S k => split_go sep k cur s'
      | O =>
          if String.prefix sep s
          then cur :: split_go sep (String.length sep - 1) EmptyString s'
          else split_go sep O (cur +:+ String c EmptyString) s'
      end
  end.

(** [s.split(sep)]; Python raises [ValueError] on an empty separator. *)
Definition split (sep s : string) : Exc (list string) :=
  match sep with
  | EmptyString => Raise (Exception "ValueError" "empty separator")
  | _ => Ok (split_go sep O EmptyString s)
  end.

(** [l[i]] on a list, with Python's negative indices and [IndexError]. *)
Definition getitem {A} (l : list A) (i : Z) : Exc A :=
  let n := Z.of_nat (length l) in
  let j := if (i <? 0)%Z then (i + n)%Z else i in
  if ((0 <=? j)%Z && (j <? n)%Z)%bool
  then match nth_error l (Z.to_nat j) with
       | Some x => Ok x
       | None => Raise IndexError
       end
  else Raise IndexError.

End Py.

(** The characters of the base64 alphabet, padding included. *)
Definition is_b64_char (c : ascii) : bool :=
  let n := nat_of_ascii c in
  (((65 <=? n) && (n <=? 90)) || ((97 <=? n) && (n <=? 122)) ||
   ((48 <=? n) && (n <=? 57)) || (n =? 43) || (n =? 47) || (n =? 61))%nat.

(** [B] is the text of a base64 encoding. *)
Definition b64_text (B : string) : bool :=
  forallb is_b64_char (list_ascii_of_string B).

(** ** The image payload of /detect (main.py, lines 228-230) *)

Definition strip_data_uri (image_data : string) : Exc string :=
  if Py.contains "base64," image_data
  then exc_bind (Py.split "base64," image_data) (fun parts => Py.getitem parts 1)
  else Ok image_data.

(** ** Data model *)

(** [RTCSessionDescription]: [sdp] is the session body, [type] its type. *)
Record RTCSessionDescription := { sdp : string; type : string }.

(** [OfferModel], the body of POST /offer. *)
Record OfferModel := { offer_sdp : string; offer_type : string }.

(** [DetectionRequest], the body of POST /detect. *)
Record DetectionRequest := { image : string; queries : list string }.

(** The default of [DetectionRequest.queries] (main.py, line 142). *)
Definition default_queries : list string :=
  ["person"; "car"; "bicycle"; "motorcycle"; "bus"; "truck"; "dog"; "cat";
   "laptop"; "phone"; "book"; "chair"; "table"; "cup"; "bottle"; "Pen"].

(** An inbound track as the transport hands it to the "track" observer. *)
Record MediaStreamTrack := { track_id : nat; kind : string }.

(** One row of [result.boxes]: [int(box.cls[0])], [float(box.conf[0])] and
    [box.xyxy[0].tolist()]. *)
Record Box := { cls : Z; conf : float; xyxy : float * float * float * float }.

(** One element of the engine's [results]; [boxes] may be [None]. *)
Record Result := { boxes : option (list Box) }.

(** One entry of the ["detections"] list of the response. *)
Record DetectionItem := { label : string; score : float; box : list float }.

(** What the handlers print, one constructor per [print] of the source. *)
Inductive LogLine :=
| LogConnectionState (state : string)
| LogTrackReceived (kind : string)
| LogProcessingImage (size : nat * nat)
| LogRequestedObjects (requested_objects : list string)
| LogAllDetected (all_detected_objects : list (string * float))
| LogReturned (n : nat)
| LogFinalCount (n : nat)
| LogDetectionError (e : exn).

(** The response of /detect: the 200 body or a [JSONResponse]. *)
Inductive DetectResponse :=
| Detections (detections : list DetectionItem)
| JSONResponse (status_code : nat) (error : string).

(** What the transport delivers to a connection's observers. *)
Inductive Event :=
| TrackEvent (track : MediaStreamTrack)
| ConnectionStateChange (state : string).

(** YOLO class names (COCO dataset), main.py lines 244-255. *)
Definition class_names : list string :=
  ["person"; "bicycle"; "car"; "motorcycle"; "airplane"; "bus"; "train"; "truck"; "boat";
   "traffic light"; "fire hydrant"; "stop sign"; "parking meter"; "bench"; "bird"; "cat";
   "dog"; "horse"; "sheep"; "cow"; "elephant"; "bear"; "zebra"; "giraffe"; "backpack";
   "umbrella"; "handbag"; "tie"; "suitcase"; "frisbee"; "skis"; "snowboard"; "sports ball";
   "kite"; "baseball bat"; "baseball glove"; "skateboard"; "surfboard"; "tennis racket";
   "bottle"; "wine glass"; "cup"; "fork"; "knife"; "spoon"; "bowl"; "banana"; "apple";
   "sandwich"; "orange"; "broccoli"; "carrot"; "hot dog"; "pizza"; "donut"; "cake";
   "chair"; "couch"; "potted plant"; "bed"; "dining table"; "toilet"; "tv"; "laptop";
   "mouse"; "remote"; "keyboard"; "cell phone"; "microwave"; "oven"; "toaster"; "sink";
   "refrigerator"; "book"; "clock"; "vase"; "scissors"; "teddy bear"; "hair drier"; "toothbrush"].

(** The confidence floor of line 277 and the thresholds passed to the engine. *)
Definition conf_threshold : float := 0.25%float.
Definition iou_threshold : float := 0x1.ccccccccccccdp-2%float. (* 0.45 *)

(** ** The result loop of /detect (main.py, lines 262-286) *)

Definition detection_item (class_name : string) (b : Box) : DetectionItem :=
  let '(x1, y1, x2, y2) := xyxy b in
  {| label := class_name; score := conf b; box := [x1; y1; x2; y2] |}.

(** The inner [for i, box in enumerate(boxes)]: [detections] and
    [all_detected_objects] are the two lists being appended to. *)
Fixpoint process_boxes (bs : list Box)
    (detections : list DetectionItem) (all_detected_objects : list (string * float))
  : Exc (list DetectionItem * list (string * float)) :=
  match bs with
  | [] => Ok (detections, all_detected_objects)
  | b :: bs' =>
      match Py.getitem class_names (cls b) with
      | Raise e => Raise e
      | Ok class_name =>
          let all_detected_objects :=
            (all_detected_objects ++ [(class_name, conf b)])%list in
          if PrimFloat.ltb conf_threshold (conf b)
          then process_boxes bs' (detections ++ [detection_item class_name b])%list
                             all_detected_objects
          else process_boxes bs' detections all_detected_objects
      end
  end.

(** The outer [for result in results], skipping [boxes is None]. *)
Fixpoint process_results (results : list Result)
    (detections : list DetectionItem) (all_detected_objects : list (string * float))
  : Exc (list DetectionItem * list (string * float)) :=
  match results with
  | [] => Ok (detections, all_detected_objects)
  | r :: results' =>
      match boxes r with
      | None => process_results results' detections all_detected_objects
      | Some bs =>
          match process_boxes bs detections all_detected_objects with
          | Raise e => Raise e
          | Ok (detections, all_detected_objects) =>
              process_results results' detections all_detected_objects
          end
      end
  end.

(** *** Vocabulary for stating what the loop returns *)

(** Every box the engine reported, in the order the two loops visit them. *)
Definition all_boxes (results : list Result) : list Box :=
  flat_map (fun r => match boxes r with Some bs => bs | None => [] end) results.

(** [0 <= cls < 80]: the class index names an entry of [class_names]. *)
Definition in_table (b : Box) : Prop := (0 <= cls b < 80)%Z.

(** The class index is one that [class_names[class_id]] rejects. *)
Definition outside_table (b : Box) : Prop := (cls b < -80 \/ 80 <= cls b)%Z.

(** The entry of the label table at the box's class index. *)
Definition label_of (b : Box) : string := nth (Z.to_nat (cls b)) class_names "".

Definition to_item (b : Box) : DetectionItem := detection_item (label_of b) b.

(** [confidence > 0.25], the test of line 277. *)
Definition above_threshold (b : Box) : bool := PrimFloat.ltb conf_threshold (conf b).

(** "Confidence is not below 0.25", the wording of the specification. *)
Definition not_below_threshold (b : Box) : bool :=
  negb (PrimFloat.ltb (conf b) conf_threshold).

(** The detections the specification's wording asks for. *)
Definition spec_detections (results : list Result) : list DetectionItem :=
  map to_item (List.filter not_below_threshold (all_boxes results)).

(** ** The session-description constructor of the transport library *)

Definition known_types : list string := ["offer"; "pranswer"; "answer"; "rollback"].

(** [RTCSessionDescription(sdp=.., type=..)]: the constructor refuses a
    [type] that is not one of the four it knows, with a [ValueError]; it
    does not look at the body. [None] means the object is built. *)
Definition description_check (s t : string) : option exn :=
  if existsb (String.eqb t) known_types
  then None
  else Some (Exception "ValueError"
               ("'type' must be in ['offer', 'pranswer', 'answer', 'rollback'] (got '"
                +:+ t +:+ "')")).

(** ** The server: process-wide state, collaborators and handlers *)

Section Server.

(** Types owned by the collaborators: video frames, PIL images, numpy
    arrays, the state of [MediaRelay] and the proxy track it hands out. *)
Context {Frame Image ndarray RelayState Proxy : Type}.

(** The collaborators the handlers call. A negotiation step of the transport
    delivers events to the connection's observers while it is awaited and
    then returns or raises. *)
Record Env := {
  (* MediaRelay.subscribe(track) *)
  relay_subscribe : RelayState -> MediaStreamTrack -> Proxy * RelayState;
  (* await proxy.recv() *)
  proxy_recv : Proxy -> Exc Frame * Proxy;
  (* base64.b64decode *)
  b64decode : string -> Exc string;
  (* Image.open(io.BytesIO(b)).convert("RGB"), image.size, np.array(image) *)
  Image_open_RGB : string -> Exc Image;
  image_size : Image -> nat * nat;
  np_array : Image -> ndarray;
  (* await pc.setRemoteDescription(offer): the remote description the
     transport then keeps, its own rendering of the offer *)
  setRemoteDescription_t : RTCSessionDescription -> list Event * Exc RTCSessionDescription;
  (* await pc.createAnswer(), from the remote description in place *)
  createAnswer_t : option RTCSessionDescription -> list Event * Exc RTCSessionDescription;
  (* await pc.setLocalDescription(answer): the local description in place *)
  setLocalDescription_t : RTCSessionDescription -> list Event * Exc RTCSessionDescription;
  (* await pc.close(), per connection *)
  close_t : nat -> option exn
}.

(** The detection engine: [model(img_array, conf=.., iou=..)]. *)
Definition YOLO : Type := ndarray -> float -> float -> Exc (list Result).

(** [VideoTransformTrack(track, transform)]; its [kind] is "video". *)
Record VideoTransformTrack := { vt_track : Proxy; vt_transform : string }.

Definition VideoTransformTrack_kind : string := "video".

(** A peer connection object: the state the transport keeps in it and what
    [offer] attaches to it. *)
Record RTCPeerConnection := {
  connectionState : string;
  remoteDescription : option RTCSessionDescription;
  localDescription : option RTCSessionDescription;
  has_on_connectionstatechange : bool;
  has_on_track : bool;
  senders : list VideoTransformTrack
}.

(** The process: the globals [pcs], [relay] and [model], the connection
    objects by identity, the [close()] calls made so far, and stdout. *)
Record World := {
  pcs : gset nat;
  relay : RelayState;
  model : option YOLO;
  heap : gmap nat RTCPeerConnection;
  closes : list nat;
  stdout : list LogLine
}.

(** *** A state-and-exception monad for the handlers *)

Definition M (A : Type) : Type := World -> Exc A * World.

Definition ret {A} (a : A) : M A := fun w => (Ok a, w).

Definition raise {A} (e : exn) : M A := fun w => (Raise e, w).

Definition bind {A B} (m : M A) (k : A -> M B) : M B := fun w =>
  match m w with
  | (Ok a, w') => k a w'
  | (Raise e, w') => (Raise e, w')
  end.

Definition lift {A} (r : Exc A) : M A := fun w => (r, w).

Definition lift_opt (r : option exn) : M unit := fun w =>
  match r with
  | Some e => (Raise e, w)
  | None => (Ok tt, w)
  end.

(** A handler run as a task of its own: what it raises stays in the task. *)
Definition as_task (m : M unit) : M unit := fun w => (Ok tt, snd (m w)).

Notation "'let!' x ':=' m 'in' k" := (bind m (fun x => k))
  (at level 10, x name, m at level 100, k at level 200).
Notation "'do!' m 'in' k" := (bind m (fun _ => k))
  (at level 10, m at level 100, k at level 200).

Definition print (l : LogLine) : M unit := fun w =>
  (Ok tt, {| pcs := pcs w; relay := relay w; model := model w; heap := heap w;
             closes := closes w; stdout := (stdout w ++ [l])%list |}).

(** *** The registry [pcs] *)

Definition set_pcs (s : gset nat) (w : World) : World :=
  {| pcs := s; relay := relay w; model := model w; heap := heap w;
     closes := closes w; stdout := stdout w |}.

Definition pcs_add (c : nat) : M unit := fun w => (Ok tt, set_pcs ({[c]} ∪ pcs w) w).
Definition pcs_discard (c : nat) : M unit := fun w => (Ok tt, set_pcs (pcs w ∖ {[c]}) w).
Definition pcs_clear : M unit := fun w => (Ok tt, set_pcs ∅ w).

(** *** Connection objects *)

Definition set_heap (h : gmap nat RTCPeerConnection) (w : World) : World :=
  {| pcs := pcs w; relay := relay w; model := model w; heap := h;
     closes := closes w; stdout := stdout w |}.

Definition new_pc : RTCPeerConnection :=
  {| connectionState := "new"; remoteDescription := None; localDescription := None;
     has_on_connectionstatechange := false; has_on_track := false; senders := [] |}.

(** [RTCPeerConnection()]: a new object, of an identity not in use. *)
Definition RTCPeerConnection_new : M nat := fun w =>
  let c := fresh (dom (heap w)) in
  (Ok c, set_heap (<[c := new_pc]> (heap w)) w).

Definition dangling : exn := Exception "ReferenceError" "no such connection".

Definition get_pc (c : nat) : M RTCPeerConnection := fun w =>
  match heap w !! c with
  | Some pc => (Ok pc, w)
  | None => (Raise dangling, w)
  end.

Definition update_pc (c : nat) (f : RTCPeerConnection -> RTCPeerConnection) : M unit :=
  let! pc := get_pc c in
  fun w => (Ok tt, set_heap (<[c := f pc]> (heap w)) w).

Definition set_connectionState (s : string) (pc : RTCPeerConnection) :=
  {| connectionState := s; remoteDescription := remoteDescription pc;
     localDescription := localDescription pc;
     has_on_connectionstatechange := has_on_connectionstatechange pc;
     has_on_track := has_on_track pc; senders := senders pc |}.

Definition set_remoteDescription (d : RTCSessionDescription) (pc : RTCPeerConnection) :=
  {| connectionState := connectionState pc; remoteDescription := Some d;
     localDescription := localDescription pc;
     has_on_connectionstatechange := has_on_connectionstatechange pc;
     has_on_track := has_on_track pc; senders := senders pc |}.

Definition set_localDescription (d : RTCSessionDescription) (pc : RTCPeerConnection) :=
  {| connectionState := connectionState pc; remoteDescription := remoteDescription pc;
     localDescription := Some d;
     has_on_connectionstatechange := has_on_connectionstatechange pc;
     has_on_track := has_on_track pc; senders := senders pc |}.

Definition attach_on_connectionstatechange (pc : RTCPeerConnection) :=
  {| connectionState := connectionState pc; remoteDescription := remoteDescription pc;
     localDescription := localDescription pc;
     has_on_connectionstatechange := true;
     has_on_track := has_on_track pc; senders := senders pc |}.

Definition attach_on_track (pc : RTCPeerConnection) :=
  {| connectionState := connectionState pc; remoteDescription := remoteDescription pc;
     localDescription := localDescription pc;
     has_on_connectionstatechange := has_on_connectionstatechange pc;
     has_on_track := true; senders := senders pc |}.

Definition add_sender (t : VideoTransformTrack) (pc : RTCPeerConnection) :=
  {| connectionState := connectionState pc; remoteDescription := remoteDescription pc;
     localDescription := localDescription pc;
     has_on_connectionstatechange := has_on_connectionstatechange pc;
     has_on_track := has_on_track pc; senders := (senders pc ++ [t])%list |}.

Variable env : Env.

(** *** Observers attached by [offer] (main.py, lines 201-213) *)

(** The connection object after a [close()] that returned: in state
    "closed", with every listener removed. *)
Definition closed_pc (pc : RTCPeerConnection) : RTCPeerConnection :=
  {| connectionState := "closed"; remoteDescription := remoteDescription pc;
     localDescription := localDescription pc;
     has_on_connectionstatechange := false; has_on_track := false;
     senders := senders pc |}.

(** What the state observer of lines 201-206 does when [close()] moves the
    connection to "closed": it prints the state; "closed" is not "failed",
    so it does nothing more. Nothing is seen without the observer, or when
    the state was "closed" already. *)
Definition closed_seen (pc : RTCPeerConnection) : list LogLine :=
  if has_on_connectionstatechange pc && negb (String.eqb (connectionState pc) "closed")
  then [LogConnectionState "closed"]
  else [].

(** [await pc.close()]: the call is made, then raises or returns. When it
    returns, the connection has moved to "closed", its state observer has
    seen that move, and the transport has removed all its listeners. *)
Definition pc_close (c : nat) : M unit := fun w =>
  let called := (closes w ++ [c])%list in
  match close_t env c with
  | Some e =>
      (Raise e, {| pcs := pcs w; relay := relay w; model := model w; heap := heap w;
                   closes := called; stdout := stdout w |})
  | None =>
      match heap w !! c with
      | Some pc =>
          (Ok tt, {| pcs := pcs w; relay := relay w; model := model w;
                     heap := <[c := closed_pc pc]> (heap w);
                     closes := called;
                     stdout := (stdout w ++ closed_seen pc)%list |})
      | None =>
          (Ok tt, {| pcs := pcs w; relay := relay w; model := model w; heap := heap w;
                     closes := called; stdout := stdout w |})
      end
  end.

(** [on_connectionstatechange], closed over [pc]. *)
Definition on_connectionstatechange (c : nat) : M unit :=
  let! pc := get_pc c in
  do! print (LogConnectionState (connectionState pc)) in
  if String.eqb (connectionState pc) "failed"
  then do! pc_close c in pcs_discard c
  else ret tt.

(** [relay.subscribe(track)] on the global relay. *)
Definition subscribe (track : MediaStreamTrack) : M Proxy := fun w =>
  let '(p, r) := relay_subscribe env (relay w) track in
  (Ok p, {| pcs := pcs w; relay := r; model := model w; heap := heap w;
            closes := closes w; stdout := stdout w |}).

(** [pc.addTrack(t)]. The transport refuses it on a connection on which
    close has been called; the observers are its only callers, and a close
    that returned has removed them. *)
Definition addTrack (c : nat) (t : VideoTransformTrack) : M unit :=
  update_pc c (add_sender t).

(** [on_track], closed over [pc]. *)
Definition on_track (c : nat) (track : MediaStreamTrack) : M unit :=
  do! print (LogTrackReceived (kind track)) in
  if String.eqb (kind track) "video"
  then let! p := subscribe track in
       addTrack c {| vt_track := p; vt_transform := "detect" |}
  else ret tt.

(** [VideoTransformTrack.recv]: one frame from the wrapped track. *)
Definition recv (t : VideoTransformTrack) : Exc Frame * VideoTransformTrack :=
  let '(frame, p) := proxy_recv env (vt_track t) in
  (frame, {| vt_track := p; vt_transform := vt_transform t |}).

(** [n] successive [recv()] on a pass-through track, up to the first raise. *)
Fixpoint recv_n (n : nat) (t : VideoTransformTrack) : list (Exc Frame) :=
  match n with
  | O => []
  | S n' => let '(f, t') := recv t in
            f :: match f with Ok _ => recv_n n' t' | Raise _ => [] end
  end.

(** The same on the wrapped track itself. *)
Fixpoint proxy_recv_n (n : nat) (p : Proxy) : list (Exc Frame) :=
  match n with
  | O => []
  | S n' => let '(f, p') := proxy_recv env p in
            f :: match f with Ok _ => proxy_recv_n n' p' | Raise _ => [] end
  end.

(** The transport delivers one event to connection [c]: a state change is
    stored in the object and its observer runs as a task; a track goes to
    the "track" observer. An observer that is not attached does nothing. *)
Definition deliver (c : nat) (ev : Event) : M unit :=
  match ev with
  | ConnectionStateChange s =>
      do! update_pc c (set_connectionState s) in
      let! pc := get_pc c in
      if has_on_connectionstatechange pc
      then as_task (on_connectionstatechange c)
      else ret tt
  | TrackEvent track =>
      let! pc := get_pc c in
      if has_on_track pc then on_track c track else ret tt
  end.

Fixpoint deliver_all (c : nat) (evs : list Event) : M unit :=
  match evs with
  | [] => ret tt
  | ev :: evs' => do! deliver c ev in deliver_all c evs'
  end.

(** *** POST /offer (main.py, lines 194-222) *)

Definition RTCSessionDescription_new (s t : string) : M RTCSessionDescription :=
  do! lift_opt (description_check s t) in
  ret {| sdp := s; type := t |}.

Definition setRemoteDescription (c : nat) (d : RTCSessionDescription) : M unit :=
  let '(evs, r) := setRemoteDescription_t env d in
  do! deliver_all c evs in
  let! kept := lift r in
  update_pc c (set_remoteDescription kept).

Definition createAnswer (c : nat) : M RTCSessionDescription :=
  let! pc := get_pc c in
  let '(evs, r) := createAnswer_t env (remoteDescription pc) in
  do! deliver_all c evs in
  lift r.

Definition setLocalDescription (c : nat) (answer : RTCSessionDescription) : M unit :=
  let '(evs, r) := setLocalDescription_t env answer in
  do! deliver_all c evs in
  let! d := lift r in
  update_pc c (set_localDescription d).

Definition NoneHasNoAttribute : exn :=
  Exception "AttributeError" "'NoneType' object has no attribute 'sdp'".

(** Lines 215-222 of [offer]: the negotiation on the connection just wired. *)
Definition negotiate (pc : nat) (offer : RTCSessionDescription) : M RTCSessionDescription :=
  do! setRemoteDescription pc offer in
  let! answer := createAnswer pc in
  do! setLocalDescription pc answer in
  let! o := get_pc pc in
  match localDescription o with
  | Some d => ret {| sdp := sdp d; type := type d |}
  | None => raise NoneHasNoAttribute
  end.

(** Lines 196-213 of [offer], then the negotiation. *)
Definition offer (params : OfferModel) : M RTCSessionDescription :=
  let! offer := RTCSessionDescription_new (offer_sdp params) (offer_type params) in
  let! pc := RTCPeerConnection_new in
  do! pcs_add pc in
  do! update_pc pc attach_on_connectionstatechange in
  do! update_pc pc attach_on_track in
  negotiate pc offer.

(** *** Vocabulary for the registry claims *)

(** Both observers of [offer] are attached to the connection object. *)
Definition observed (w : World) (c : nat) : Prop :=
  exists pc, heap w !! c = Some pc
             /\ has_on_connectionstatechange pc = true /\ has_on_track pc = true.

Definition registered_and_observed (w : World) (c : nat) : Prop :=
  c ∈ pcs w /\ observed w c.

Definition discarded (w : World) (c : nat) : Prop := c ∉ pcs w.

(** In the Registry without its observers. *)
Definition partially_wired (w : World) (c : nat) : Prop :=
  c ∈ pcs w /\ ~ observed w c.

(** Every registered connection is an allocated object. *)
Definition registry_wf (w : World) : Prop := pcs w ⊆ dom (heap w).

Definition is_failed (ev : Event) : bool :=
  match ev with
  | ConnectionStateChange s => String.eqb s "failed"
  | TrackEvent _ => false
  end.

Definition no_failed (evs : list Event) : bool := forallb (fun ev => negb (is_failed ev)) evs.

(** The transport reports no move to [failed] while a negotiation step is
    awaited. *)
Definition quiet_transport : Prop :=
  (forall d, no_failed (fst (setRemoteDescription_t env d)) = true)
  /\ (forall d, no_failed (fst (createAnswer_t env d)) = true)
  /\ (forall d, no_failed (fst (setLocalDescription_t env d)) = true).

(** What a step may do to an allocated connection [c]: the object stays,
    the Registry is kept or loses [c] only, [c] is not left in the Registry
    without its observers, and when [quiet] the Registry and the observers
    are kept. *)
Definition keeps (c : nat) (quiet : Prop) {A} (m : M A) : Prop :=
  forall w, is_Some (heap w !! c) ->
    is_Some (heap (snd (m w)) !! c)
    /\ (pcs (snd (m w)) = pcs w \/ pcs (snd (m w)) = pcs w ∖ {[c]})
    /\ ((c ∈ pcs w -> observed w c) -> c ∈ pcs (snd (m w)) -> observed (snd (m w)) c)
    /\ (quiet -> pcs (snd (m w)) = pcs w /\ (observed w c -> observed (snd (m w)) c)).

(** *** The shutdown hook (main.py, lines 303-308) *)

(** [await asyncio.gather] of the coroutines: every coroutine runs; the first
    exception, if any, is what the caller gets. *)
Fixpoint gather (coros : list (M unit)) : M (list unit) := fun w =>
  match coros with
  | [] => (Ok [], w)
  | m :: coros' =>
      let '(r, w1) := m w in
      let '(rs, w2) := gather coros' w1 in
      (match r, rs with
       | Raise e, _ => Raise e
       | Ok _, Raise e => Raise e
       | Ok a, Ok l => Ok (a :: l)
       end, w2)
  end.

Definition shutdown_event : M unit :=
  fun w =>
    let coros := map pc_close (elements (pcs w)) in
    (do! gather coros in pcs_clear) w.

(** *** POST /detect (main.py, lines 224-301) *)

Definition call_model (img_array : ndarray) : M (list Result) := fun w =>
  match model w with
  | Some yolo => (yolo img_array conf_threshold iou_threshold, w)
  | None => (Raise NoneNotCallable, w)
  end.

(** The body of the [try]. *)
Definition detect_try (detection : DetectionRequest) : M (list DetectionItem) :=
  let! image_data := lift (strip_data_uri (image detection)) in
  let! image_bytes := lift (b64decode env image_data) in
  let! image := lift (Image_open_RGB env image_bytes) in
  do! print (LogProcessingImage (image_size env image)) in
  let img_array := np_array env image in
  let! results := call_model img_array in
  let requested_objects := queries detection in
  do! print (LogRequestedObjects requested_objects) in
  let! r := lift (process_results results [] []) in
  let '(detections, all_detected_objects) := r in
  do! print (LogAllDetected all_detected_objects) in
  do! print (LogReturned (length detections)) in
  do! print (LogFinalCount (length detections)) in
  ret detections.

(** The handler: [try] ... [except Exception as e]. *)
Definition detect_objects (detection : DetectionRequest) (w : World)
  : DetectResponse * World :=
  match detect_try detection w with
  | (Ok detections, w') => (Detections detections, w')
  | (Raise e, w') =>
      (JSONResponse 500 (exn_str e), snd (print (LogDetectionError e) w'))
  end.

End Server.

(** ** Vocabulary for further properties of the handlers *)

(** The class index is one Python accepts on an 80-entry list. *)
Definition indexable (b : Box) : Prop := (-80 <= cls b < 80)%Z.

(** The entry [class_names[class_id]] reads: negative indices count from
    the end of the table. *)
Definition py_label (b : Box) : string :=
  nth (Z.to_nat (if (cls b <? 0)%Z then cls b + 80 else cls b)%Z) class_names "".

Definition py_item (b : Box) : DetectionItem := detection_item (py_label b) b.

(** A detection as the response may carry it. *)
Definition well_formed_item (d : DetectionItem) : Prop :=
  PrimFloat.ltb conf_threshold (score d) = true
  /\ In (label d) class_names
  /\ length (box d) = 4%nat.

Definition is_video (ev : Event) : bool :=
  match ev with
  | TrackEvent t => String.eqb (kind t) "video"
  | ConnectionStateChange _ => false
  end.

(** The video tracks of a sequence of events that arrive before its first
    move to "failed". *)
Fixpoint video_before_failed (evs : list Event) : nat :=
  match evs with
  | [] => 0
  | ev :: evs' =>
      match ev with
      | ConnectionStateChange s =>
          if String.eqb s "failed" then 0%nat else video_before_failed evs'
      | TrackEvent t =>
          ((if String.eqb (kind t) "video" then 1 else 0) + video_before_failed evs')%nat
      end
  end.

Section Footprint.

Context {ndarray RelayState Proxy : Type}.

Local Abbreviation World := (@World ndarray RelayState Proxy).
Local Abbreviation M := (@M ndarray RelayState Proxy).

(** What work on connection [c] may change between two states: the other
    connection objects and their registrations are as they were, [c] is not
    added to the Registry, its object is not lost, no object appears, and
    the engine is the same. *)
Definition steps_on (c : nat) (w w' : World) : Prop :=
  (forall c', c' <> c -> heap w' !! c' = heap w !! c')
  /\ (forall c', c' <> c -> (c' ∈ pcs w' <-> c' ∈ pcs w))
  /\ (c ∈ pcs w' -> c ∈ pcs w)
  /\ (is_Some (heap w' !! c) <-> is_Some (heap w !! c))
  /\ model w' = model w.

Definition local_to (c : nat) {A} (m : M A) : Prop :=
  forall w, steps_on c w (snd (m w)).

(** Every registered connection is an allocated object with both of its
    observers attached. *)
Definition registry_inv (w : World) : Prop :=
  forall c, c ∈ pcs w -> observed w c.

(** The descriptions and outbound tracks of connection [c], if allocated. *)
Definition remote_of (w : World) (c : nat) : option RTCSessionDescription :=
  match heap w !! c with
  | Some pc => remoteDescription pc
  | None => None
  end.

Definition local_of (w : World) (c : nat) : option RTCSessionDescription :=
  match heap w !! c with
  | Some pc => localDescription pc
  | None => None
  end.

Definition senders_of (w : World) (c : nat) : list (@VideoTransformTrack Proxy) :=
  match heap w !! c with
  | Some pc => senders pc
  | None => []
  end.

(** Two connection objects that differ at most in the connection state and
    in [n] more outbound tracks. *)
Definition evolved (n : nat) (pc pc' : @RTCPeerConnection Proxy) : Prop :=
  remoteDescription pc' = remoteDescription pc
  /\ localDescription pc' = localDescription pc
  /\ has_on_connectionstatechange pc' = has_on_connectionstatechange pc
  /\ has_on_track pc' = has_on_track pc
  /\ length (senders pc') = (length (senders pc) + n)%nat.

End Footprint.

(** ** Network helpers (main.py, lines 48-84 and 157-192) *)

Module Net.

(** How a block of statements ends: it falls through, returns or raises. *)
Inductive Completion (A : Type) : Type :=
| Normal
| Return (a : A)
| Raised (e : exn).
Arguments Normal {A}.
Arguments Return {A} a.
Arguments Raised {A} e.

(** What [get_local_ip] does to the outside, in order. *)
Inductive NetEvent :=
| Print (line : string)
| SockNew
| SockSetTimeout (seconds : nat)
| SockConnect (host : string) (port : nat)
| SockGetName
| SockClose
| GetHostName
| GetHostByName (hostname : string).

(** The environment the helpers read: [os.getenv], the UDP socket, the
    resolver and the QR encoder. *)
Record NetEnv := {
  getenv : string -> option string;
  socket_new : option exn;
  socket_connect : string -> nat -> option exn;
  socket_getsockname : Exc string;
  socket_close : option exn;
  gethostname : Exc string;
  gethostbyname : string -> Exc string;
  (* generate_qr_code(url): the PNG bytes of the QR code, or a raise *)
  qr_png : string -> Exc string
}.

(** Python's truth value of [os.getenv(..)]: [None] and [""] are false. *)
Definition truthy (v : option string) : option string :=
  match v with
  | Some EmptyString => None
  | Some s => Some s
  | None => None
  end.

Definition docker_fallback : string := "10.71.252.230".

(** Lines 60-70: the body of the inner [try]. *)
Definition probe (n : NetEnv) : Completion string * list NetEvent :=
  match socket_connect n "8.8.8.8" 80 with
  | Some e => (Raised e, [SockConnect "8.8.8.8" 80])
  | None =>
      match socket_getsockname n with
      | Raise e => (Raised e, [SockConnect "8.8.8.8" 80; SockGetName])
      | Ok container_ip =>
          let seen := [SockConnect "8.8.8.8" 80; SockGetName;
                       Print ("Container IP: " +:+ container_ip)] in
          if String.prefix "172." container_ip
          then (Return docker_fallback,
                (seen ++ [Print "Detected Docker container, using fallback IP"])%list)
          else (Return container_ip, seen)
      end
  end.

(** Lines 71-72: [finally: s.close()]; a raising close replaces whatever
    the block was ending with. *)
Definition finally_close (n : NetEnv) (r : Completion string * list NetEvent)
  : Completion string * list NetEvent :=
  match socket_close n with
  | Some e => (Raised e, (snd r ++ [SockClose])%list)
  | None => (fst r, (snd r ++ [SockClose])%list)
  end.

(** Lines 74-81: hostname resolution, the statements after the inner [try]. *)
Definition resolve_hostname (n : NetEnv) : Completion string * list NetEvent :=
  match gethostname n with
  | Raise e => (Raised e, [GetHostName])
  | Ok hostname =>
      match gethostbyname n hostname with
      | Raise e => (Raised e, [GetHostName; GetHostByName hostname])
      | Ok local_ip =>
          if negb (String.prefix "127." local_ip)
          then (Return local_ip,
                [GetHostName; GetHostByName hostname;
                 Print ("Hostname resolution IP: " +:+ local_ip)])
          else (Return "localhost", [GetHostName; GetHostByName hostname])
      end
  end.

(** Lines 51-81: the body of the outer [try]. *)
Definition get_local_ip_try (n : NetEnv) : Completion string * list NetEvent :=
  match truthy (getenv n "HOST_IP") with
  | Some host_ip =>
      (Return host_ip, [Print ("Using HOST_IP from environment: " +:+ host_ip)])
  | None =>
      match socket_new n with
      | Some e => (Raised e, [SockNew])
      | None =>
          let r := finally_close n (probe n) in
          let done := (SockNew :: SockSetTimeout 2 :: snd r)%list in
          match fst r with
          | Normal =>
              let r3 := resolve_hostname n in
              (fst r3, (done ++ snd r3)%list)
          | c => (c, done)
          end
      end
  end.

(** [get_local_ip]: the outer [try] with its [except Exception]. A body
    that falls off the end would return [None]. *)
Definition get_local_ip (n : NetEnv) : option string * list NetEvent :=
  let r := get_local_ip_try n in
  match fst r with
  | Return ip => (Some ip, snd r)
  | Raised e =>
      (Some "localhost", (snd r ++ [Print ("Error getting local IP: " +:+ exn_str e)])%list)
  | Normal => (None, snd r)
  end.

(** [str] of what [get_local_ip] returned, as an f-string formats it. *)
Definition fmt (ip : option string) : string :=
  match ip with
  | Some s => s
  | None => "None"
  end.

(** The JSON body of GET /network-info. *)
Record NetworkInfo := {
  real_ip : option string;
  localhost_ip : string;
  localhost_url : string;
  localhost_phone_url : string;
  real_ip_url : string;
  real_ip_phone_url : string;
  local_ip : option string;
  frontend_url : string;
  phone_url : string
}.

Definition get_network_info (n : NetEnv) : NetworkInfo * list NetEvent :=
  let '(real_ip, evs) := get_local_ip n in
  let frontend_port_http := 3000%nat in
  let frontend_port_https := 3443%nat in
  ({| real_ip := real_ip;
      localhost_ip := "localhost";
      localhost_url := "http://localhost:" +:+ pretty frontend_port_http;
      localhost_phone_url := "http://localhost:" +:+ pretty frontend_port_http +:+ "/phone";
      real_ip_url := "https://" +:+ fmt real_ip +:+ ":" +:+ pretty frontend_port_https;
      real_ip_phone_url :=
        "https://" +:+ fmt real_ip +:+ ":" +:+ pretty frontend_port_https +:+ "/phone";
      local_ip := real_ip;
      frontend_url := "https://" +:+ fmt real_ip +:+ ":" +:+ pretty frontend_port_https;
      phone_url :=
        "https://" +:+ fmt real_ip +:+ ":" +:+ pretty frontend_port_https +:+ "/phone" |},
   evs).

(** [StreamingResponse(io.BytesIO(qr_bytes), media_type=.., headers=..)] *)
Record StreamingResponse := {
  content : string;
  media_type : string;
  headers : list (string * string)
}.

(** GET /qr-code; the handler has no [try], so a raise of the encoder
    leaves it. *)
Definition get_qr_code (n : NetEnv) : Exc StreamingResponse * list NetEvent :=
  let '(real_ip, evs) := get_local_ip n in
  let phone_url := "https://" +:+ fmt real_ip +:+ ":3443/phone" in
  let evs := (evs ++ [Print ("Generating QR code for: " +:+ phone_url)])%list in
  match qr_png n phone_url with
  | Raise e => (Raise e, evs)
  | Ok qr_bytes =>
      (Ok {| content := qr_bytes; media_type := "image/png";
             headers := [("Content-Disposition", "inline; filename=phone_qr.png")] |},
       evs)
  end.

(** The socket operations among the events. *)
Definition is_sock (ev : NetEvent) : bool :=
  match ev with
  | SockNew | SockSetTimeout _ | SockConnect _ _ | SockGetName | SockClose => true
  | _ => false
  end.

Definition is_resolver (ev : NetEvent) : bool :=
  match ev with
  | GetHostName | GetHostByName _ => true
  | _ => false
  end.

Definition count_ev (p : NetEvent -> bool) (evs : list NetEvent) : nat :=
  length (List.filter p evs).

Definition is_new (ev : NetEvent) : bool :=
  match ev with SockNew => true | _ => false end.

Definition is_close (ev : NetEvent) : bool :=
  match ev with SockClose => true | _ => false end.

End Net.

(** ** Concrete collaborators, used to run the handlers on examples *)

Module Demo.

(** A relay that records the identities of the tracks subscribed to, and
    proxies that carry the frames still to come. *)
Definition demo_subscribe (r : list nat) (t : MediaStreamTrack) : list nat * list nat :=
  ([track_id t; 7; 8], (r ++ [track_id t])%list).

Definition demo_recv (p : list nat) : Exc nat * list nat :=
  match p with
  | [] => (Raise (Exception "MediaStreamError" ""), [])
  | f :: p' => (Ok f, p')
  end.

Definition bad_payload : exn := Exception "Error" "Incorrect padding".
Definition invalid_state : exn :=
  Exception "InvalidStateError" "Cannot handle answer in signaling state stable".
Definition close_failed : exn := Exception "ConnectionError" "close failed".

(** A remote description is applied when its type is "offer", whatever its
    body (an empty body carries no track), and refused on a new connection
    otherwise; connection 1 cannot be closed. *)
Definition demo_env : @Env nat string string (list nat) (list nat) :=
  {| relay_subscribe := demo_subscribe;
     proxy_recv := demo_recv;
     b64decode := fun s => if String.eqb s "" then Raise bad_payload else Ok s;
     Image_open_RGB := fun b => Ok b;
     image_size := fun _ => (10, 10)%nat;
     np_array := fun i => i;
     setRemoteDescription_t := fun d =>
       if String.eqb (type d) "offer"
       then (if String.eqb (sdp d) ""
             then []
             else [TrackEvent {| track_id := 4; kind := "video" |}],
             Ok {| sdp := sdp d +:+ "a=setup:actpass"; type := type d |})
       else ([], Raise invalid_state);
     createAnswer_t := fun _ => ([], Ok {| sdp := "v=0"; type := "answer" |});
     setLocalDescription_t := fun a => ([ConnectionStateChange "connecting"], Ok a);
     close_t := fun c => if Nat.eqb c 1 then Some close_failed else None |}.

Definition box1 : float * float * float * float :=
  (1%float, 2%float, 3%float, 4%float).

(** An engine that reports what the payload names. *)
Definition demo_yolo : @YOLO string := fun img _ _ =>
  if String.eqb img "edge" then Ok [ {| boxes := Some [ {| cls := 0; conf := 0.25%float; xyxy := box1 |} ] |} ]
  else if String.eqb img "high" then Ok [ {| boxes := Some [ {| cls := 80; conf := 0.5%float; xyxy := box1 |} ] |} ]
  else if String.eqb img "none" then Ok [ {| boxes := None |} ]
  else Ok [ {| boxes := Some [ {| cls := 16; conf := 0.5%float; xyxy := box1 |};
                               {| cls := 0; conf := 0.125%float; xyxy := box1 |} ] |} ].

Definition world0 : @World string (list nat) (list nat) :=
  {| pcs := ∅; relay := []; model := Some demo_yolo; heap := ∅;
     closes := []; stdout := [] |}.

Definition observed_pc : @RTCPeerConnection (list nat) :=
  attach_on_track (attach_on_connectionstatechange new_pc).

(** Two registered, observed connections. *)
Definition world2 : @World string (list nat) (list nat) :=
  {| pcs := {[ 0%nat; 2%nat ]}; relay := []; model := Some demo_yolo;
     heap := <[ 0%nat := observed_pc ]> (<[ 2%nat := observed_pc ]> ∅);
     closes := []; stdout := [] |}.

(** Three registered connections, one of which cannot be closed. *)
Definition world3 : @World string (list nat) (list nat) :=
  {| pcs := {[ 0%nat; 1%nat; 2%nat ]}; relay := []; model := Some demo_yolo;
     heap := <[ 0%nat := observed_pc ]> (<[ 1%nat := observed_pc ]> (<[ 2%nat := observed_pc ]> ∅));
     closes := []; stdout := [] |}.

(** The same collaborators with closes that always return. *)
Definition calm_env : @Env nat string string (list nat) (list nat) :=
  {| relay_subscribe := relay_subscribe demo_env;
     proxy_recv := proxy_recv demo_env;
     b64decode := b64decode demo_env;
     Image_open_RGB := Image_open_RGB demo_env;
     image_size := image_size demo_env;
     np_array := np_array demo_env;
     setRemoteDescription_t := setRemoteDescription_t demo_env;
     createAnswer_t := createAnswer_t demo_env;
     setLocalDescription_t := setLocalDescription_t demo_env;
     close_t := fun _ => None |}.

(** An engine that reports the last class by a negative index, and a box
    below the threshold. *)
Definition last_class_boxes : list Result :=
  [ {| boxes := Some [ {| cls := -1; conf := 0.5%float; xyxy := box1 |};
                       {| cls := 79; conf := 0.125%float; xyxy := box1 |} ] |} ].

Definition world_last_class : @World string (list nat) (list nat) :=
  {| pcs := ∅; relay := []; model := Some (fun _ _ _ => Ok last_class_boxes);
     heap := ∅; closes := []; stdout := [] |}.

(** The process before startup: no engine yet. *)
Definition world_no_engine : @World string (list nat) (list nat) :=
  {| pcs := ∅; relay := []; model := None; heap := ∅; closes := []; stdout := [] |}.

(** A host without HOST_IP whose UDP socket sits on a Docker bridge. *)
Definition docker_net : Net.NetEnv :=
  {| Net.getenv := fun _ => None;
     Net.socket_new := None;
     Net.socket_connect := fun _ _ => None;
     Net.socket_getsockname := Ok "172.17.0.2";
     Net.socket_close := None;
     Net.gethostname := Ok "box";
     Net.gethostbyname := fun _ => Ok "192.168.1.5";
     Net.qr_png := fun url => Ok ("PNG:" +:+ url) |}.

(** The same host with no route: [connect] raises. *)
Definition offline_net : Net.NetEnv :=
  {| Net.getenv := fun _ => Some "";
     Net.socket_new := None;
     Net.socket_connect := fun _ _ => Some (Exception "OSError" "Network is unreachable");
     Net.socket_getsockname := Ok "0.0.0.0";
     Net.socket_close := None;
     Net.gethostname := Ok "box";
     Net.gethostbyname := fun _ => Ok "192.168.1.5";
     Net.qr_png := fun url => Ok ("PNG:" +:+ url) |}.

(** HOST_IP set by docker-compose. *)
Definition compose_net : Net.NetEnv :=
  {| Net.getenv := fun k => if String.eqb k "HOST_IP" then Some "192.168.1.20" else None;
     Net.socket_new := None;
     Net.socket_connect := fun _ _ => None;
     Net.socket_getsockname := Ok "172.17.0.2";
     Net.socket_close := None;
     Net.gethostname := Ok "box";
     Net.gethostbyname := fun _ => Ok "192.168.1.5";
     Net.qr_png := fun url => Ok ("PNG:" +:+ url) |}.

End Demo.

(** * Properties *)

Example strip_prefixed :
  strip_data_uri "data:image/png;base64,iVBORw0KGgo=" = Ok "iVBORw0KGgo=".
Proof. reflexivity. Qed.

Example strip_bare : strip_data_uri "iVBORw0KGgo=" = Ok "iVBORw0KGgo=".
Proof. reflexivity. Qed.

Example strip_twice : strip_data_uri "abase64,bbase64,c" = Ok "b".
Proof. reflexivity. Qed.

Example getitem_neg : Py.getitem ["a"; "b"; "c"] (-1) = Ok "c".
Proof. reflexivity. Qed.

Example class_names_length : length class_names = 80%nat.
Proof. reflexivity. Qed.

Example offer_ok_registry :
  pcs (snd (offer Demo.demo_env {| offer_sdp := "v=0"; offer_type := "offer" |} Demo.world0))
  = {[ 0%nat ]}.
Proof. vm_compute. reflexivity. Qed.

Example detect_default :
  fst (detect_objects Demo.demo_env {| image := "data:image/png;base64,AAAA"; queries := [] |} Demo.world0)
  = Detections [ {| label := "dog"; score := 0.5%float; box := [1%float; 2%float; 3%float; 4%float] |} ].
Proof. vm_compute. reflexivity. Qed.

Section Properties.

Context {Frame Image ndarray RelayState Proxy : Type}.
Variable env : @Env Frame Image ndarray RelayState Proxy.

Local Abbreviation World := (@World ndarray RelayState Proxy).
Local Abbreviation RTCPeerConnection := (@RTCPeerConnection Proxy).

(** *** The registry *)

Lemma set_pcs_same (w : World) : set_pcs (pcs w) w = w.
Proof. destruct w; reflexivity. Qed.

Lemma pcs_discard_absent (w : World) (c : nat) :
  c ∉ pcs w -> pcs_discard c w = (Ok tt, w).
Proof.
  intros Hc. unfold pcs_discard.
  replace (pcs w ∖ {[c]}) with (pcs w) by set_solver.
  now rewrite set_pcs_same.
Qed.

(** C8: discarding a connection twice leaves the Registry, and the whole
    process state, as the first discard left it; discarding a connection
    that is not registered changes nothing and raises nothing. *)
Theorem discard_idempotent (w : World) (c : nat) :
  pcs_discard c (snd (pcs_discard c w)) = (Ok tt, snd (pcs_discard c w))
  /\ pcs (snd (pcs_discard c (snd (pcs_discard c w)))) = pcs (snd (pcs_discard c w))
  /\ (c ∉ pcs w -> pcs_discard c w = (Ok tt, w)).
Proof.
  assert (Hgone : c ∉ pcs (snd (pcs_discard c w))) by (simpl; set_solver).
  split; [| split].
  - now apply pcs_discard_absent.
  - now rewrite pcs_discard_absent.
  - apply pcs_discard_absent.
Qed.

(** *** The connection-state observer *)

Lemma on_connectionstatechange_failed (w : World) (c : nat) (pc : RTCPeerConnection) :
  heap w !! c = Some pc ->
  connectionState pc = "failed" ->
  let w' := snd (on_connectionstatechange env c w) in
  closes w' = (closes w ++ [c])%list
  /\ pcs w' = match close_t env c with
              | Some _ => pcs w
              | None => pcs w ∖ {[c]}
              end
  /\ heap w' = match close_t env c with
               | Some _ => heap w
               | None => <[c := closed_pc pc]> (heap w)
               end
  /\ relay w' = relay w.
Proof.
  intros Hc Hs. unfold on_connectionstatechange, bind, get_pc, print, pc_close.
  rewrite Hc. simpl. rewrite Hs. simpl.
  destruct (close_t env c); simpl; [auto |].
  rewrite Hc. simpl. auto.
Qed.

Lemma on_connectionstatechange_other (w : World) (c : nat) (pc : RTCPeerConnection) :
  heap w !! c = Some pc ->
  connectionState pc <> "failed" ->
  let w' := snd (on_connectionstatechange env c w) in
  closes w' = closes w /\ pcs w' = pcs w /\ heap w' = heap w /\ relay w' = relay w.
Proof.
  intros Hc Hs. unfold on_connectionstatechange, bind, get_pc, print.
  rewrite Hc. simpl.
  destruct (String.eqb_spec (connectionState pc) "failed") as [E | _]; [contradiction |].
  simpl. auto.
Qed.

Lemma deliver_state_change (w : World) (c : nat) (pc : RTCPeerConnection) (s : string) :
  heap w !! c = Some pc ->
  has_on_connectionstatechange pc = true ->
  deliver env c (ConnectionStateChange s) w =
  (Ok tt, snd (on_connectionstatechange env c
                 (set_heap (<[c := set_connectionState s pc]> (heap w)) w))).
Proof.
  intros Hc Hobs. unfold deliver, update_pc, bind, get_pc.
  rewrite Hc. simpl. rewrite lookup_insert_eq. simpl. rewrite Hobs. reflexivity.
Qed.

(** When the close itself raises, the observer stops there: the call was
    made, the entry stays. *)
Lemma failed_close_raises_keeps_entry
    (w : World) (c : nat) (pc : RTCPeerConnection) (e : exn) :
  heap w !! c = Some pc ->
  has_on_connectionstatechange pc = true ->
  close_t env c = Some e ->
  let w' := snd (deliver env c (ConnectionStateChange "failed") w) in
  closes w' = (closes w ++ [c])%list /\ pcs w' = pcs w.
Proof.
  intros Hc Hobs Hclose. rewrite (deliver_state_change w c pc _ Hc Hobs). simpl.
  destruct (on_connectionstatechange_failed
              (set_heap (<[c := set_connectionState "failed" pc]> (heap w)) w)
              c (set_connectionState "failed" pc)) as (H1 & H2 & _).
  - simpl. apply lookup_insert_eq.
  - reflexivity.
  - rewrite Hclose in H2. simpl in *. now rewrite H1, H2.
Qed.

(** C3 as amended: when the transport moves an observed connection to
    [failed], the observer calls the connection's close and, when that close
    returns, discards the connection from the Registry; when the close
    raises, the discard is not reached and the entry stays. On a move to
    any other state (disconnected among them) no close is called and the
    Registry is as it was. *)
Theorem failed_is_the_only_teardown
    (w : World) (c : nat) (pc : RTCPeerConnection) (s : string) :
  heap w !! c = Some pc ->
  has_on_connectionstatechange pc = true ->
  let w' := snd (deliver env c (ConnectionStateChange s) w) in
  (s = "failed" -> close_t env c = None ->
     closes w' = (closes w ++ [c])%list /\ pcs w' = pcs w ∖ {[c]} /\ c ∉ pcs w')
  /\ (s = "failed" -> forall e, close_t env c = Some e ->
     closes w' = (closes w ++ [c])%list /\ pcs w' = pcs w)
  /\ (s <> "failed" -> closes w' = closes w /\ pcs w' = pcs w).
Proof.
  intros Hc Hobs. cbv zeta. split; [| split].
  - intros -> Hclose. rewrite (deliver_state_change w c pc _ Hc Hobs). simpl.
    destruct (on_connectionstatechange_failed
                (set_heap (<[c := set_connectionState "failed" pc]> (heap w)) w)
                c (set_connectionState "failed" pc)) as (H1 & H2 & _).
    + simpl. apply lookup_insert_eq.
    + reflexivity.
    + rewrite Hclose in H2. simpl in *. rewrite H1, H2. repeat split. set_solver.
  - intros -> e Hclose. exact (failed_close_raises_keeps_entry w c pc e Hc Hobs Hclose).
  - intros Hs. rewrite (deliver_state_change w c pc s Hc Hobs). simpl.
    destruct (on_connectionstatechange_other
                (set_heap (<[c := set_connectionState s pc]> (heap w)) w)
                c (set_connectionState s pc)) as (H1 & H2 & _).
    + simpl. apply lookup_insert_eq.
    + exact Hs.
    + simpl in *. now rewrite H1, H2.
Qed.

(** *** The track observer and the pass-through track *)

Lemma recv_passes_frame (t : VideoTransformTrack) :
  fst (recv env t) = fst (proxy_recv env (vt_track t))
  /\ vt_track (snd (recv env t)) = snd (proxy_recv env (vt_track t))
  /\ vt_transform (snd (recv env t)) = vt_transform t.
Proof. unfold recv. destruct (proxy_recv env (vt_track t)); simpl; auto. Qed.

Lemma recv_n_passes_frames (n : nat) (t : VideoTransformTrack) :
  recv_n env n t = proxy_recv_n env n (vt_track t).
Proof.
  revert t. induction n as [| n IH]; intros t; simpl; [reflexivity |].
  unfold recv. destruct (proxy_recv env (vt_track t)) as [f p] eqn:E.
  destruct f; [| reflexivity].
  f_equal. apply (IH {| vt_track := p; vt_transform := vt_transform t |}).
Qed.


End Properties.

(** *** Strings: the data-URI prefix *)

Lemma prefix_nil (s : string) : String.prefix "" s = true.
Proof. destruct s; reflexivity. Qed.

Lemma prefix_chars (p s : string) (x : ascii) :
  String.prefix p s = true ->
  In x (list_ascii_of_string p) -> In x (list_ascii_of_string s).
Proof.
  revert s. induction p as [| a p IH]; intros s Hp Hx; [destruct Hx |].
  destruct s as [| b s]; simpl in Hp; [discriminate |].
  destruct (ascii_dec a b) as [-> | _]; [| discriminate].
  destruct Hx as [<- | Hx]; [now left | right; now apply IH].
Qed.

Lemma contains_false (sep s : string) (x : ascii) :
  In x (list_ascii_of_string sep) ->
  ~ In x (list_ascii_of_string s) ->
  Py.contains sep s = false.
Proof.
  intros Hsep. induction s as [| c s IH]; intros Hs.
  - destruct sep; [destruct Hsep | reflexivity].
  - cbn [Py.contains].
    destruct (String.prefix sep (String c s)) eqn:E.
    + exfalso. apply Hs. now apply (prefix_chars sep (String c s) x).
    + cbn [orb]. apply IH. intros Hin. apply Hs. now right.
Qed.

Lemma append_assoc (a b c : string) : (a +:+ b) +:+ c = a +:+ (b +:+ c).
Proof.
  induction a as [| x a IH]; [reflexivity |].
  change (String x ((a +:+ b) +:+ c) = String x (a +:+ (b +:+ c))).
  now rewrite IH.
Qed.

Lemma append_nil_r (a : string) : a +:+ "" = a.
Proof.
  induction a as [| x a IH]; [reflexivity |].
  change (String x (a +:+ "") = String x a). now rewrite IH.
Qed.

Lemma split_go_no_match (sep cur s : string) (x : ascii) :
  In x (list_ascii_of_string sep) ->
  ~ In x (list_ascii_of_string s) ->
  Py.split_go sep 0 cur s = [cur +:+ s].
Proof.
  intros Hsep. revert cur. induction s as [| c s IH]; intros cur Hs.
  - simpl. now rewrite append_nil_r.
  - cbn [Py.split_go].
    destruct (String.prefix sep (String c s)) eqn:E.
    + exfalso. apply Hs. now apply (prefix_chars sep (String c s) x).
    + rewrite IH.
      * now rewrite append_assoc.
      * intros Hin. apply Hs. now right.
Qed.

Lemma b64_text_no_comma (B : string) :
  b64_text B = true -> ~ In ","%char (list_ascii_of_string B).
Proof.
  unfold b64_text. intros HB Hin.
  rewrite forallb_forall in HB. specialize (HB _ Hin). discriminate.
Qed.

Lemma comma_in_marker : In ","%char (list_ascii_of_string "base64,").
Proof. simpl. tauto. Qed.

Lemma strip_bare_payload (B : string) :
  ~ In ","%char (list_ascii_of_string B) -> strip_data_uri B = Ok B.
Proof.
  intros HB. unfold strip_data_uri.
  now rewrite (contains_false "base64," B ","%char comma_in_marker HB).
Qed.

Lemma strip_prefixed_payload (B : string) :
  ~ In ","%char (list_ascii_of_string B) ->
  strip_data_uri ("data:image/png;base64," +:+ B) = Ok B.
Proof.
  intros HB. unfold strip_data_uri.
  cbv [String.append]. cbn. rewrite prefix_nil. cbn.
  rewrite (split_go_no_match "base64," "" B ","%char comma_in_marker HB).
  reflexivity.
Qed.

(** *** The result loop *)

Lemma getitem_raises_IndexError {A} (l : list A) (i : Z) (e : exn) :
  Py.getitem l i = Raise e -> e = IndexError.
Proof.
  unfold Py.getitem.
  destruct (_ && _)%bool; [| congruence].
  destruct (nth_error l _); congruence.
Qed.

Lemma getitem_in_table (i : Z) :
  (0 <= i < 80)%Z ->
  Py.getitem class_names i = Ok (nth (Z.to_nat i) class_names "").
Proof.
  intros Hi. unfold Py.getitem.
  change (Z.of_nat (length class_names)) with 80%Z.
  destruct (Z.ltb_spec i 0); [lia |].
  destruct (Z.leb_spec 0 i); [| lia].
  destruct (Z.ltb_spec i 80); [| lia].
  cbn [andb].
  rewrite (nth_error_nth' class_names ""); [reflexivity |].
  change (length class_names) with 80%nat. lia.
Qed.

Lemma getitem_outside_table (i : Z) :
  (i < -80 \/ 80 <= i)%Z -> Py.getitem class_names i = Raise IndexError.
Proof.
  intros Hi. unfold Py.getitem.
  change (Z.of_nat (length class_names)) with 80%Z.
  destruct (Z.ltb_spec i 0).
  - destruct (Z.leb_spec 0 (i + 80)); [lia | reflexivity].
  - destruct (Z.leb_spec 0 i); [| reflexivity].
    destruct (Z.ltb_spec i 80); [lia | reflexivity].
Qed.

Lemma process_boxes_in_table (bs : list Box) :
  Forall in_table bs ->
  forall detections all_detected_objects,
    process_boxes bs detections all_detected_objects =
    Ok ((detections ++ map to_item (List.filter above_threshold bs))%list,
        (all_detected_objects ++ map (fun b => (label_of b, conf b)) bs)%list).
Proof.
  induction 1 as [| b bs Hb _ IH]; intros ds ads; simpl.
  - now rewrite !app_nil_r.
  - rewrite (getitem_in_table (cls b) Hb).
    fold (label_of b). unfold above_threshold at 1.
    destruct (PrimFloat.ltb conf_threshold (conf b)); rewrite IH.
    + simpl. now rewrite <- !app_assoc.
    + now rewrite <- !app_assoc.
Qed.

Lemma process_boxes_raises (bs : list Box) :
  forall detections all_detected_objects e,
    process_boxes bs detections all_detected_objects = Raise e -> e = IndexError.
Proof.
  induction bs as [| b bs IH]; intros ds ads e; simpl; [discriminate |].
  destruct (Py.getitem class_names (cls b)) eqn:E.
  - destruct (PrimFloat.ltb conf_threshold (conf b)); apply IH.
  - intros [= <-]. now apply getitem_raises_IndexError in E.
Qed.

Lemma process_boxes_outside_table (bs : list Box) :
  Exists outside_table bs ->
  forall detections all_detected_objects,
    process_boxes bs detections all_detected_objects = Raise IndexError.
Proof.
  induction 1 as [b bs Hb | b bs _ IH]; intros ds ads; simpl.
  - now rewrite (getitem_outside_table (cls b) Hb).
  - destruct (Py.getitem class_names (cls b)) eqn:E.
    + destruct (PrimFloat.ltb conf_threshold (conf b)); apply IH.
    + now rewrite (getitem_raises_IndexError _ _ _ E).
Qed.

Lemma process_boxes_app (xs ys : list Box) :
  forall detections all_detected_objects,
    process_boxes (xs ++ ys) detections all_detected_objects =
    match process_boxes xs detections all_detected_objects with
    | Ok (d, a) => process_boxes ys d a
    | Raise e => Raise e
    end.
Proof.
  induction xs as [| b xs IH]; intros ds ads; simpl; [reflexivity |].
  destruct (Py.getitem class_names (cls b)); [| reflexivity].
  destruct (PrimFloat.ltb conf_threshold (conf b)); apply IH.
Qed.

Lemma process_results_all_boxes (results : list Result) :
  forall detections all_detected_objects,
    process_results results detections all_detected_objects =
    process_boxes (all_boxes results) detections all_detected_objects.
Proof.
  induction results as [| r results IH]; intros ds ads; simpl; [reflexivity |].
  destruct (boxes r) as [bs |]; simpl; [| apply IH].
  rewrite process_boxes_app.
  destruct (process_boxes bs ds ads) as [[d a] | e]; [apply IH | reflexivity].
Qed.

Section DetectionProperties.

Context {Frame Image ndarray RelayState Proxy : Type}.
Variable env : @Env Frame Image ndarray RelayState Proxy.

Local Abbreviation World := (@World ndarray RelayState Proxy).

(** What the [try] body computes, stage by stage. *)
Lemma detect_try_stages (detection : DetectionRequest) (w : World)
    (image_data image_bytes : string) (img : Image) (yolo : YOLO)
    (results : list Result) :
  strip_data_uri (image detection) = Ok image_data ->
  b64decode env image_data = Ok image_bytes ->
  Image_open_RGB env image_bytes = Ok img ->
  model w = Some yolo ->
  yolo (np_array env img) conf_threshold iou_threshold = Ok results ->
  fst (detect_try env detection w) =
  match process_boxes (all_boxes results) [] [] with
  | Ok (d, _) => Ok d
  | Raise e => Raise e
  end.
Proof.
  intros H1 H2 H3 H4 H5.
  unfold detect_try, bind, lift, print, call_model. simpl.
  rewrite H1, H2, H3. simpl. rewrite H4, H5.
  rewrite process_results_all_boxes.
  destruct (process_boxes (all_boxes results) [] []) as [[d a] | e]; reflexivity.
Qed.

Lemma detect_objects_response (detection : DetectionRequest) (w : World) :
  fst (detect_objects env detection w) =
  match fst (detect_try env detection w) with
  | Ok detections => Detections detections
  | Raise e => JSONResponse 500 (exn_str e)
  end.
Proof.
  unfold detect_objects. destruct (detect_try env detection w) as [[d | e] w']; reflexivity.
Qed.

(** What the handler does with the text left after stripping: it is that
    text that goes to [b64decode], and the response is made from what the
    decoding, the image and the engine give. *)
Lemma detect_objects_decodes_stripped (detection : DetectionRequest) (w : World)
    (image_data : string) :
  strip_data_uri (image detection) = Ok image_data ->
  (forall e, b64decode env image_data = Raise e ->
     fst (detect_objects env detection w) = JSONResponse 500 (exn_str e))
  /\ (forall image_bytes img yolo results,
      b64decode env image_data = Ok image_bytes ->
      Image_open_RGB env image_bytes = Ok img ->
      model w = Some yolo ->
      yolo (np_array env img) conf_threshold iou_threshold = Ok results ->
      fst (detect_objects env detection w) =
      match process_results results [] [] with
      | Ok (detections, _) => Detections detections
      | Raise e => JSONResponse 500 (exn_str e)
      end).
Proof.
  intros Hs. split.
  - intros e He. unfold detect_objects, detect_try, bind, lift.
    now rewrite Hs, He.
  - intros b i yolo results H2 H3 H4 H5.
    unfold detect_objects, detect_try, bind, lift, print, call_model.
    rewrite Hs, H2, H3. cbn. rewrite H4, H5.
    destruct (process_results results [] []) as [[ds ads] | e]; reflexivity.
Qed.

(** C5: for a base64 text [B], the payload with the data-URI prefix and the
    bare payload are both reduced to [B] before decoding, and the handler
    answers both requests alike: same response, same process state. What
    is decoded is [B] itself: when [b64decode] refuses [B] the prefixed
    request gets its error as a status 500, and when [B] decodes to an
    image the response is made from the engine's output for that image. *)
Theorem data_uri_prefix_irrelevant (B : string) (qs : list string) (w : World) :
  b64_text B = true ->
  strip_data_uri ("data:image/png;base64," +:+ B) = Ok B
  /\ strip_data_uri B = Ok B
  /\ detect_objects env {| image := "data:image/png;base64," +:+ B; queries := qs |} w
     = detect_objects env {| image := B; queries := qs |} w
  /\ (forall e, b64decode env B = Raise e ->
      fst (detect_objects env
             {| image := "data:image/png;base64," +:+ B; queries := qs |} w)
      = JSONResponse 500 (exn_str e))
  /\ (forall image_bytes img yolo results,
      b64decode env B = Ok image_bytes ->
      Image_open_RGB env image_bytes = Ok img ->
      model w = Some yolo ->
      yolo (np_array env img) conf_threshold iou_threshold = Ok results ->
      fst (detect_objects env
             {| image := "data:image/png;base64," +:+ B; queries := qs |} w)
      = match process_results results [] [] with
        | Ok (detections, _) => Detections detections
        | Raise e => JSONResponse 500 (exn_str e)
        end).
Proof.
  intros HB. apply b64_text_no_comma in HB.
  pose proof (strip_prefixed_payload B HB) as Hp.
  pose proof (strip_bare_payload B HB) as Hb.
  split; [exact Hp |]. split; [exact Hb |]. split.
  - unfold detect_objects, detect_try, bind, lift. cbn [image queries].
    now rewrite Hp, Hb.
  - exact (detect_objects_decodes_stripped
             {| image := "data:image/png;base64," +:+ B; queries := qs |} w B Hp).
Qed.

(** C6 as amended: when every class index the engine reports lies in the
    80-entry table, the response lists exactly the reported boxes whose
    confidence is strictly above 0.25, in the engine's order, each as
    label (the table entry at its class index), score (its confidence) and
    box [x1, y1, x2, y2]. *)
Theorem detections_strictly_above_threshold
    (detection : DetectionRequest) (w : World)
    (image_data image_bytes : string) (img : Image) (yolo : YOLO)
    (results : list Result) :
  strip_data_uri (image detection) = Ok image_data ->
  b64decode env image_data = Ok image_bytes ->
  Image_open_RGB env image_bytes = Ok img ->
  model w = Some yolo ->
  yolo (np_array env img) conf_threshold iou_threshold = Ok results ->
  Forall in_table (all_boxes results) ->
  fst (detect_objects env detection w) =
  Detections (map to_item (List.filter above_threshold (all_boxes results))).
Proof.
  intros H1 H2 H3 H4 H5 Htable.
  rewrite detect_objects_response.
  rewrite (detect_try_stages detection w _ _ _ _ _ H1 H2 H3 H4 H5).
  now rewrite (process_boxes_in_table _ Htable).
Qed.

(** C7: two requests with the same image payload get the same response
    whatever their [queries]; the process state they leave differs at most
    in what was printed. *)
Theorem queries_do_not_influence_detections
    (payload : string) (qs1 qs2 : list string) (w : World) :
  let r1 := detect_objects env {| image := payload; queries := qs1 |} w in
  let r2 := detect_objects env {| image := payload; queries := qs2 |} w in
  fst r1 = fst r2
  /\ pcs (snd r1) = pcs (snd r2) /\ relay (snd r1) = relay (snd r2)
  /\ heap (snd r1) = heap (snd r2) /\ closes (snd r1) = closes (snd r2)
  /\ model (snd r1) = model (snd r2).
Proof.
  cbv zeta. unfold detect_objects, detect_try, bind, lift, print, call_model.
  cbn [image queries].
  destruct (strip_data_uri payload) as [d |]; [| simpl; tauto].
  destruct (b64decode env d) as [b |]; [| simpl; tauto].
  destruct (Image_open_RGB env b) as [i |]; [| simpl; tauto].
  cbn. destruct (model w) as [yolo |]; [| simpl; tauto].
  destruct (yolo _ _ _) as [results |]; [| simpl; tauto].
  cbn. destruct (process_results results [] []) as [[ds ads] |]; simpl; tauto.
Qed.

(** C10: the handler always answers: with the detections, or, when
    anything in the [try] raised, with status 500 and the exception's
    message as ["error"]; a reported class index that [class_names] does not
    have is such a case (message "list index out of range"). Neither path
    touches the Registry, the relay, the connections or the engine. *)
Theorem detect_objects_total (detection : DetectionRequest) (w : World) :
  let r := detect_objects env detection w in
  (fst r = match fst (detect_try env detection w) with
           | Ok detections => Detections detections
           | Raise e => JSONResponse 500 (exn_str e)
           end)
  /\ (forall image_data image_bytes img yolo results,
        strip_data_uri (image detection) = Ok image_data ->
        b64decode env image_data = Ok image_bytes ->
        Image_open_RGB env image_bytes = Ok img ->
        model w = Some yolo ->
        yolo (np_array env img) conf_threshold iou_threshold = Ok results ->
        Exists outside_table (all_boxes results) ->
        fst r = JSONResponse 500 "list index out of range")
  /\ pcs (snd r) = pcs w /\ relay (snd r) = relay w /\ heap (snd r) = heap w
  /\ closes (snd r) = closes w /\ model (snd r) = model w.
Proof.
  cbv zeta. split; [apply detect_objects_response |]. split.
  - intros d b i yolo results H1 H2 H3 H4 H5 Hout.
    rewrite detect_objects_response.
    rewrite (detect_try_stages detection w _ _ _ _ _ H1 H2 H3 H4 H5).
    now rewrite (process_boxes_outside_table _ Hout).
  - unfold detect_objects, detect_try, bind, lift, print, call_model.
    destruct (strip_data_uri (image detection)) as [d |]; [| simpl; tauto].
    destruct (b64decode env d) as [b |]; [| simpl; tauto].
    destruct (Image_open_RGB env b) as [i |]; [| simpl; tauto].
    cbn. destruct (model w) as [yolo |]; [| simpl; tauto].
    destruct (yolo _ _ _) as [results |]; [| simpl; tauto].
    cbn. destruct (process_results results [] []) as [[ds ads] |]; simpl; tauto.
Qed.

End DetectionProperties.

Section SignalingProperties.

Context {Frame Image ndarray RelayState Proxy : Type}.
Variable env : @Env Frame Image ndarray RelayState Proxy.

Local Abbreviation World := (@World ndarray RelayState Proxy).
Local Abbreviation RTCPeerConnection := (@RTCPeerConnection Proxy).
Local Abbreviation M := (@M ndarray RelayState Proxy).

(** *** Steps that never leave a connection half wired *)

Lemma kept_when_flags_kept (c : nat) (Q : Prop) (w w' : World)
    (pc pc' : RTCPeerConnection) :
  heap w !! c = Some pc ->
  heap w' !! c = Some pc' ->
  has_on_connectionstatechange pc' = has_on_connectionstatechange pc ->
  has_on_track pc' = has_on_track pc ->
  pcs w' = pcs w ->
  is_Some (heap w' !! c)
  /\ (pcs w' = pcs w \/ pcs w' = pcs w ∖ {[c]})
  /\ ((c ∈ pcs w -> observed w c) -> c ∈ pcs w' -> observed w' c)
  /\ (Q -> pcs w' = pcs w /\ (observed w c -> observed w' c)).
Proof.
  intros Hc Hc' H1 H2 Hp.
  assert (Hobs : observed w c -> observed w' c).
  { intros (pc0 & Hpc0 & F1 & F2). rewrite Hc in Hpc0. injection Hpc0 as <-.
    exists pc'. rewrite H1, H2. auto. }
  split; [eauto |]. split; [auto |]. split; [| auto].
  intros H Hin. rewrite Hp in Hin. auto.
Qed.

Lemma keeps_frame (c : nat) (Q : Prop) {A} (m : M A) :
  (forall w, pcs (snd (m w)) = pcs w /\ heap (snd (m w)) = heap w) ->
  keeps c Q m.
Proof.
  intros Hm w [pc Hc]. destruct (Hm w) as [Hp Hh].
  apply (kept_when_flags_kept c Q w _ pc pc); auto. now rewrite Hh.
Qed.

Lemma keeps_bind (c : nat) (Q : Prop) {A B} (m : M A) (k : A -> M B) :
  keeps c Q m -> (forall a, keeps c Q (k a)) -> keeps c Q (bind m k).
Proof.
  intros Hm Hk w Hs. unfold bind.
  destruct (Hm w Hs) as (A1 & A2 & A3 & A4).
  destruct (m w) as [[a | e] w1]; simpl in *; [| auto].
  destruct (Hk a w1 A1) as (B1 & B2 & B3 & B4).
  split; [exact B1 |]. split; [| split].
  - destruct A2 as [E1 | E1], B2 as [E2 | E2]; rewrite E2, E1; auto.
    right. set_solver.
  - intros H. apply B3, A3, H.
  - intros q. destruct (A4 q) as [Ap Ao], (B4 q) as [Bp Bo].
    split; [now rewrite Bp | auto].
Qed.

Lemma keeps_ret (c : nat) (Q : Prop) {A} (a : A) : keeps c Q (ret a : M A).
Proof. apply keeps_frame. intros w. split; reflexivity. Qed.

Lemma keeps_raise (c : nat) (Q : Prop) {A} (e : exn) : keeps c Q (raise e : M A).
Proof. apply keeps_frame. intros w. split; reflexivity. Qed.

Lemma keeps_lift (c : nat) (Q : Prop) {A} (r : Exc A) : keeps c Q (lift r : M A).
Proof. apply keeps_frame. intros w. split; reflexivity. Qed.

Lemma keeps_lift_opt (c : nat) (Q : Prop) (r : option exn) :
  keeps c Q (lift_opt r : M unit).
Proof. apply keeps_frame. intros w. destruct r; split; reflexivity. Qed.

Lemma keeps_get_pc (c c' : nat) (Q : Prop) : keeps c Q (get_pc c' : M _).
Proof.
  apply keeps_frame. intros w. unfold get_pc.
  destruct (heap w !! c'); split; reflexivity.
Qed.

Lemma keeps_update_pc (c : nat) (Q : Prop) (f : RTCPeerConnection -> RTCPeerConnection) :
  (forall pc, has_on_connectionstatechange (f pc) = has_on_connectionstatechange pc
              /\ has_on_track (f pc) = has_on_track pc) ->
  keeps c Q (update_pc c f : M unit).
Proof.
  intros Hf w [pc Hc]. unfold update_pc, bind, get_pc.
  rewrite Hc. cbn [fst snd]. destruct (Hf pc) as [F1 F2].
  apply (kept_when_flags_kept c Q w _ pc (f pc)); auto.
  cbn [heap set_heap]. apply lookup_insert_eq.
Qed.

Lemma keeps_deliver (c : nat) (Q : Prop) (ev : Event) :
  (Q -> is_failed ev = false) -> keeps c Q (deliver env c ev).
Proof.
  intros HQ w [pc Hc]. destruct ev as [track | s].
  - unfold deliver, bind, get_pc. rewrite Hc. cbn [fst snd].
    destruct (has_on_track pc).
    + unfold on_track, bind, print. cbn [fst snd].
      destruct (String.eqb (kind track) "video").
      * unfold subscribe, addTrack, update_pc, bind, get_pc. cbn [fst snd relay heap].
        destruct (relay_subscribe env (relay w) track) as [p r']. cbn [fst snd heap].
        rewrite Hc. cbn [fst snd].
        eapply (kept_when_flags_kept c Q w _ pc); try exact Hc;
          [cbn [heap set_heap]; apply lookup_insert_eq | reflexivity ..].
      * apply (kept_when_flags_kept c Q w _ pc pc); auto.
    + apply (kept_when_flags_kept c Q w _ pc pc); auto.
  - unfold deliver, update_pc, bind, get_pc. rewrite Hc. cbn [fst snd heap set_heap].
    rewrite lookup_insert_eq. cbn [fst snd has_on_connectionstatechange set_connectionState].
    set (w1 := set_heap (<[c := set_connectionState s pc]> (heap w)) w).
    assert (Hc1 : heap w1 !! c = Some (set_connectionState s pc))
      by (simpl; apply lookup_insert_eq).
    destruct (has_on_connectionstatechange pc) eqn:Ho.
    + unfold as_task. cbn [fst snd].
      destruct (String.eqb_spec s "failed") as [-> | Hs].
      * destruct (on_connectionstatechange_failed env w1 c _ Hc1 eq_refl)
          as (_ & Hp & Hh & _).
        destruct (close_t env c) as [e |].
        -- eapply (kept_when_flags_kept c Q w _ pc); try exact Hc;
             [rewrite Hh; exact Hc1 | reflexivity | reflexivity | exact Hp].
        -- cbn zeta in Hp, Hh. split; [rewrite Hh, lookup_insert_eq; eauto |].
           split; [right; exact Hp |]. split.
           ++ intros _ Hin. rewrite Hp in Hin. set_solver.
           ++ intros q. specialize (HQ q). discriminate.
      * destruct (on_connectionstatechange_other env w1 c _ Hc1 Hs)
          as (_ & Hp & Hh & _).
        eapply (kept_when_flags_kept c Q w _ pc); try exact Hc;
          [rewrite Hh; exact Hc1 | reflexivity | reflexivity | exact Hp].
    + eapply (kept_when_flags_kept c Q w _ pc); try exact Hc;
        [exact Hc1 | reflexivity | reflexivity | reflexivity].
Qed.

Lemma keeps_deliver_all (c : nat) (Q : Prop) (evs : list Event) :
  (Q -> no_failed evs = true) -> keeps c Q (deliver_all env c evs).
Proof.
  induction evs as [| ev evs IH]; intros HQ; simpl.
  - apply keeps_ret.
  - apply keeps_bind.
    + apply keeps_deliver. intros q. specialize (HQ q). simpl in HQ.
      apply andb_prop in HQ as [Hev _]. now apply negb_true_iff in Hev.
    + intros _. apply IH. intros q. specialize (HQ q). simpl in HQ.
      now apply andb_prop in HQ as [_ Hevs].
Qed.

Lemma keeps_negotiate (c : nat) (d : RTCSessionDescription) :
  keeps c (quiet_transport env) (negotiate env c d).
Proof.
  unfold negotiate. apply keeps_bind.
  - unfold setRemoteDescription.
    destruct (setRemoteDescription_t env d) as [evs r] eqn:E.
    apply keeps_bind.
    + apply keeps_deliver_all. intros (q & _). specialize (q d). now rewrite E in q.
    + intros _. apply keeps_bind; [apply keeps_lift |].
      intros kept. apply keeps_update_pc. intros pc. split; reflexivity.
  - intros _. apply keeps_bind.
    + unfold createAnswer. apply keeps_bind; [apply keeps_get_pc |].
      intros pc. destruct (createAnswer_t env (remoteDescription pc)) as [evs r] eqn:E.
      apply keeps_bind; [| intros _; apply keeps_lift].
      apply keeps_deliver_all. intros (_ & q & _).
      specialize (q (remoteDescription pc)). now rewrite E in q.
    + intros answer. apply keeps_bind.
      * unfold setLocalDescription.
        destruct (setLocalDescription_t env answer) as [evs r] eqn:E.
        apply keeps_bind.
        -- apply keeps_deliver_all. intros (_ & _ & q).
           specialize (q answer). now rewrite E in q.
        -- intros _. apply keeps_bind; [apply keeps_lift |].
           intros d'. apply keeps_update_pc. intros pc. split; reflexivity.
      * intros _. apply keeps_bind; [apply keeps_get_pc |].
        intros o. destruct (localDescription o); [apply keeps_ret | apply keeps_raise].
Qed.

(** *** POST /offer *)

Lemma offer_rejected (params : OfferModel) (w : World) (e : exn) :
  description_check (offer_sdp params) (offer_type params) = Some e ->
  offer env params w = (Raise e, w).
Proof.
  intros Hd. unfold offer, bind, RTCSessionDescription_new, bind, lift_opt.
  now rewrite Hd.
Qed.

(** Lines 196-213: once the description is built, the new connection is in
    the Registry with both observers attached, and only then negotiated. *)
Lemma offer_prologue (params : OfferModel) (w : World) :
  description_check (offer_sdp params) (offer_type params) = None ->
  exists w4 : World,
    offer env params w =
    negotiate env (fresh (dom (heap w)))
              {| sdp := offer_sdp params; type := offer_type params |} w4
    /\ observed w4 (fresh (dom (heap w)))
    /\ pcs w4 = {[fresh (dom (heap w))]} ∪ pcs w
    /\ closes w4 = closes w /\ relay w4 = relay w.
Proof.
  intros Hd.
  unfold offer, bind, RTCSessionDescription_new, bind, lift_opt. rewrite Hd.
  unfold ret, RTCPeerConnection_new, pcs_add, update_pc, bind, get_pc. simpl.
  rewrite lookup_insert_eq. simpl. rewrite lookup_insert_eq. simpl.
  eexists. split; [reflexivity |]. simpl. split; [| auto].
  eexists. cbn [heap set_heap]. rewrite lookup_insert_eq.
  split; [reflexivity |]. auto.
Qed.

Lemma offer_footprint (params : OfferModel) (w : World) :
  description_check (offer_sdp params) (offer_type params) = None ->
  let c := fresh (dom (heap w)) in
  let w' := snd (offer env params w) in
  (c ∈ pcs w' -> observed w' c)
  /\ (pcs w' = {[c]} ∪ pcs w \/ pcs w' = ({[c]} ∪ pcs w) ∖ {[c]})
  /\ (quiet_transport env -> pcs w' = {[c]} ∪ pcs w /\ observed w' c)
  /\ is_Some (heap w' !! c).
Proof.
  intros Hd. cbv zeta.
  destruct (offer_prologue params w Hd) as (w4 & -> & Hobs & Hp & _).
  assert (Hs : is_Some (heap w4 !! fresh (dom (heap w))))
    by (destruct Hobs as (pc & Hpc & _); eauto).
  destruct (keeps_negotiate (fresh (dom (heap w)))
              {| sdp := offer_sdp params; type := offer_type params |} w4 Hs)
    as (H1 & H2 & H3 & H4).
  rewrite Hp in H2, H4.
  split; [apply H3; auto |]. split; [exact H2 |]. split; [| exact H1].
  intros q. destruct (H4 q) as [Hq1 Hq2]. auto.
Qed.

Lemma fresh_not_registered (w : World) :
  registry_wf w -> fresh (dom (heap w)) ∉ pcs w.
Proof.
  intros Hwf Hin. apply (is_fresh (dom (heap w))). now apply Hwf.
Qed.



(** C2: when the description was built and the call then raised (applying
    the remote description, creating the answer or applying it failed), the
    connection created by the call is either in the Registry with both
    observers attached or not in the Registry; it is never in the Registry
    without its observers. *)
Theorem failed_negotiation_not_partially_wired
    (params : OfferModel) (w : World) (e : exn) :
  description_check (offer_sdp params) (offer_type params) = None ->
  fst (offer env params w) = Raise e ->
  (registered_and_observed (snd (offer env params w)) (fresh (dom (heap w)))
   \/ discarded (snd (offer env params w)) (fresh (dom (heap w))))
  /\ ~ partially_wired (snd (offer env params w)) (fresh (dom (heap w))).
Proof.
  intros Hd _.
  destruct (offer_footprint params w Hd) as (Hobs & _ & _).
  split.
  - destruct (decide (fresh (dom (heap w)) ∈ pcs (snd (offer env params w)))) as [Hin | Hout].
    + left. split; [exact Hin | exact (Hobs Hin)].
    + right. exact Hout.
  - intros [Hin Hno]. apply Hno, Hobs, Hin.
Qed.

(** Which of the two it is: a connection whose negotiation raised stays
    registered unless a move to [failed] was reported during the call. *)
Lemma failed_negotiation_stays_registered
    (params : OfferModel) (w : World) (e : exn) :
  description_check (offer_sdp params) (offer_type params) = None ->
  quiet_transport env ->
  fst (offer env params w) = Raise e ->
  registered_and_observed (snd (offer env params w)) (fresh (dom (heap w))).
Proof.
  intros Hd Hq _.
  destruct (offer_footprint params w Hd) as (_ & _ & Hp & _).
  destruct (Hp Hq) as [Hpcs Hobs].
  split; [rewrite Hpcs; set_solver | exact Hobs].
Qed.

End SignalingProperties.

Section ShutdownProperties.

Context {Frame Image ndarray RelayState Proxy : Type}.
Variable env : @Env Frame Image ndarray RelayState Proxy.

Local Abbreviation World := (@World ndarray RelayState Proxy).

Lemma pc_close_fields (c : nat) (w : World) :
  pcs (snd (pc_close env c w)) = pcs w
  /\ closes (snd (pc_close env c w)) = (closes w ++ [c])%list
  /\ relay (snd (pc_close env c w)) = relay w
  /\ model (snd (pc_close env c w)) = model w
  /\ dom (heap (snd (pc_close env c w))) = dom (heap w)
  /\ (forall c', c' <> c -> heap (snd (pc_close env c w)) !! c' = heap w !! c').
Proof.
  unfold pc_close. destruct (close_t env c); simpl; [repeat split |].
  destruct (heap w !! c) as [pc |] eqn:Hc; simpl; [| repeat split].
  repeat split.
  - rewrite dom_insert_L. apply elem_of_dom_2 in Hc. set_solver.
  - intros c' Hc'. now apply lookup_insert_ne.
Qed.

(** Gathering the closes of [cs]: every close is called, in turn; the
    Registry, the relay and the engine are as they were, no object appears
    or disappears, and the other connections are untouched. *)
Lemma gather_closes_world (cs : list nat) :
  forall w : World,
    pcs (snd (gather (map (pc_close env) cs) w)) = pcs w
    /\ closes (snd (gather (map (pc_close env) cs) w)) = (closes w ++ cs)%list
    /\ relay (snd (gather (map (pc_close env) cs) w)) = relay w
    /\ model (snd (gather (map (pc_close env) cs) w)) = model w
    /\ dom (heap (snd (gather (map (pc_close env) cs) w))) = dom (heap w)
    /\ (forall c', c' ∉ cs ->
        heap (snd (gather (map (pc_close env) cs) w)) !! c' = heap w !! c').
Proof.
  induction cs as [| c cs IH]; intros w; simpl.
  - rewrite app_nil_r. repeat split.
  - destruct (pc_close_fields c w) as (P1 & P2 & P3 & P4 & P5 & P6).
    destruct (pc_close env c w) as [r w1]. simpl in *.
    destruct (IH w1) as (G1 & G2 & G3 & G4 & G5 & G6).
    destruct (gather (map (pc_close env) cs) w1) as [rs w2]. simpl in *.
    rewrite G1, G2, G3, G4, G5, P1, P2, P3, P4, P5, <- app_assoc.
    repeat split. intros c' Hc'.
    rewrite G6 by set_solver. apply P6. set_solver.
Qed.

Lemma gather_closes_ok (cs : list nat) (w : World) :
  (forall c, c ∈ cs -> close_t env c = None) ->
  exists l, fst (gather (map (pc_close env) cs) w) = Ok l.
Proof.
  revert w. induction cs as [| c cs IH]; intros w Hall; simpl.
  - now exists [].
  - destruct (pc_close env c w) as [r w1] eqn:E1.
    destruct (IH w1) as [l Hl]; [intros c' Hc'; apply Hall; now right |].
    destruct (gather (map (pc_close env) cs) w1) as [rs w2]. simpl in *. subst rs.
    unfold pc_close in E1. rewrite (Hall c) in E1 by now left.
    destruct (heap w !! c); injection E1 as <- _; now exists (tt :: l).
Qed.

Lemma gather_closes_raises (cs : list nat) (w : World) (c : nat) (e : exn) :
  c ∈ cs -> close_t env c = Some e ->
  exists e', fst (gather (map (pc_close env) cs) w) = Raise e'.
Proof.
  revert w. induction cs as [| c0 cs IH]; intros w Hin Hc; [inversion Hin |].
  simpl.
  destruct (pc_close env c0 w) as [r w1] eqn:E1.
  destruct (gather (map (pc_close env) cs) w1) as [rs w2] eqn:E2. simpl.
  destruct r as [[] | e0]; [| now exists e0].
  apply elem_of_cons in Hin as [-> | Hin].
  - unfold pc_close in E1. rewrite Hc in E1. discriminate.
  - destruct (IH w1 Hin Hc) as [e' He']. rewrite E2 in He'. simpl in He'.
    subst rs. now exists e'.
Qed.

Lemma shutdown_event_returns (w : World) :
  (forall c, c ∈ pcs w -> close_t env c = None) ->
  fst (shutdown_event env w) = Ok tt
  /\ pcs (snd (shutdown_event env w)) = ∅
  /\ closes (snd (shutdown_event env w)) = (closes w ++ elements (pcs w))%list.
Proof.
  intros Hall. unfold shutdown_event, bind.
  destruct (gather_closes_world (elements (pcs w)) w) as (_ & G2 & _).
  destruct (gather_closes_ok (elements (pcs w)) w) as [l Hl].
  { intros c Hc. apply Hall. now apply elem_of_elements. }
  destruct (gather (map (pc_close env) (elements (pcs w))) w) as [rs w1].
  simpl in G2, Hl. subst rs. simpl. auto.
Qed.

Lemma shutdown_event_raises (w : World) (c : nat) (e : exn) :
  c ∈ pcs w -> close_t env c = Some e ->
  (exists e', fst (shutdown_event env w) = Raise e')
  /\ pcs (snd (shutdown_event env w)) = pcs w.
Proof.
  intros Hc Hclose. unfold shutdown_event, bind.
  destruct (gather_closes_world (elements (pcs w)) w) as (G1 & _).
  destruct (gather_closes_raises (elements (pcs w)) w c e) as [e' He'];
    [now apply elem_of_elements | exact Hclose |].
  destruct (gather (map (pc_close env) (elements (pcs w))) w) as [rs w1].
  simpl in G1, He'. subst rs. simpl. split; [now exists e' | exact G1].
Qed.

Lemma shutdown_event_closes (w : World) :
  closes (snd (shutdown_event env w)) = (closes w ++ elements (pcs w))%list.
Proof.
  unfold shutdown_event, bind.
  destruct (gather_closes_world (elements (pcs w)) w) as (_ & G2 & _).
  destruct (gather (map (pc_close env) (elements (pcs w))) w) as [rs w1].
  simpl in G2. destruct rs; simpl; exact G2.
Qed.

Lemma shutdown_event_empty (w : World) :
  pcs w = ∅ -> shutdown_event env w = (Ok tt, w).
Proof.
  intros He. unfold shutdown_event, bind. rewrite He, elements_empty. simpl.
  unfold pcs_clear. rewrite <- He. now rewrite set_pcs_same.
Qed.

(** C4 as amended: [shutdown_event] calls close on the connections that
    are in the Registry when it starts, each exactly once, and a close that
    raises does not keep the others from being called. When every close
    returns, the Registry is cleared and a second call closes nothing and
    changes nothing. When some close raises, the call raises and the
    Registry is left as it was. *)
Theorem shutdown_event_closes_snapshot (w : World) :
  closes (snd (shutdown_event env w)) = (closes w ++ elements (pcs w))%list
  /\ NoDup (elements (pcs w))
  /\ (forall c, c ∈ elements (pcs w) <-> c ∈ pcs w)
  /\ ((forall c, c ∈ pcs w -> close_t env c = None) ->
      fst (shutdown_event env w) = Ok tt
      /\ pcs (snd (shutdown_event env w)) = ∅
      /\ shutdown_event env (snd (shutdown_event env w))
         = (Ok tt, snd (shutdown_event env w)))
  /\ (forall c e, c ∈ pcs w -> close_t env c = Some e ->
      (exists e', fst (shutdown_event env w) = Raise e')
      /\ pcs (snd (shutdown_event env w)) = pcs w).
Proof.
  split; [apply shutdown_event_closes |].
  split; [apply NoDup_elements |].
  split; [intros c; apply elem_of_elements |].
  split.
  - intros Hall. destruct (shutdown_event_returns w Hall) as (H1 & H2 & _).
    split; [exact H1 |]. split; [exact H2 |].
    now apply shutdown_event_empty.
  - intros c e Hc Hclose. now apply (shutdown_event_raises w c e).
Qed.

End ShutdownProperties.

(** * Concrete runs *)

Lemma demo_env_quiet : quiet_transport Demo.demo_env.
Proof.
  repeat split; intros d; simpl; try reflexivity.
  destruct (String.eqb (type d) "offer"); [| reflexivity].
  destruct (String.eqb (sdp d) ""); reflexivity.
Qed.

Lemma world0_wf : registry_wf Demo.world0.
Proof. unfold registry_wf. simpl. set_solver. Qed.


Example offer_empty_type_is_refused :
  let params := {| offer_sdp := "v=0"; offer_type := "" |} in
  fst (offer Demo.demo_env params Demo.world2)
  = Raise (Exception "ValueError"
             "'type' must be in ['offer', 'pranswer', 'answer', 'rollback'] (got '')")
  /\ snd (offer Demo.demo_env params Demo.world2) = Demo.world2.
Proof. cbv zeta. split; reflexivity. Qed.


Lemma failed_negotiation_not_partially_wired_witness :
  let params := {| offer_sdp := "v=0"; offer_type := "answer" |} in
  let w' := snd (offer Demo.demo_env params Demo.world0) in
  let c := fresh (dom (heap Demo.world0)) in
  (registered_and_observed w' c \/ discarded w' c) /\ ~ partially_wired w' c.
Proof.
  cbv zeta.
  apply (failed_negotiation_not_partially_wired Demo.demo_env
           {| offer_sdp := "v=0"; offer_type := "answer" |} Demo.world0
           Demo.invalid_state).
  - reflexivity.
  - vm_compute. reflexivity.
Defined.

(** C3, counterexample: connection 1 is registered and observed and its
    close raises; on its move to [failed] the close is called and the
    connection is still in the Registry. *)
Lemma failed_with_raising_close_stays_registered :
  let w' := snd (deliver Demo.demo_env 1 (ConnectionStateChange "failed") Demo.world3) in
  heap Demo.world3 !! 1%nat = Some Demo.observed_pc
  /\ close_t Demo.demo_env 1 = Some Demo.close_failed
  /\ closes w' = [1%nat]
  /\ pcs w' = pcs Demo.world3
  /\ 1%nat ∈ pcs w'.
Proof.
  cbv zeta.
  split; [vm_compute; reflexivity |]. split; [reflexivity |].
  split; [vm_compute; reflexivity |]. split; [vm_compute; reflexivity |].
  apply (bool_decide_unpack _). vm_compute. exact I.
Qed.

Lemma failed_is_the_only_teardown_witness :
  let w' := snd (deliver Demo.demo_env 0 (ConnectionStateChange "failed") Demo.world2) in
  closes w' = (closes Demo.world2 ++ [0%nat])%list
  /\ pcs w' = pcs Demo.world2 ∖ {[0%nat]} /\ 0%nat ∉ pcs w'.
Proof.
  cbv zeta.
  apply (proj1 (failed_is_the_only_teardown Demo.demo_env Demo.world2 0
                  Demo.observed_pc "failed" eq_refl eq_refl)); reflexivity.
Defined.

Example disconnected_no_teardown :
  let w' := snd (deliver Demo.demo_env 0 (ConnectionStateChange "disconnected") Demo.world2) in
  closes w' = [] /\ pcs w' = pcs Demo.world2.
Proof. cbv zeta. split; vm_compute; reflexivity. Qed.

(** C4, counterexample: with a connection whose close raises, the call
    raises, the Registry still holds the three connections, and a second
    call closes every one of them a second time. *)
Lemma shutdown_with_failing_close_keeps_registry :
  let r1 := shutdown_event Demo.demo_env Demo.world3 in
  let r2 := shutdown_event Demo.demo_env (snd r1) in
  fst r1 = Raise Demo.close_failed
  /\ pcs (snd r1) = pcs Demo.world3
  /\ size (pcs (snd r1)) = 3%nat
  /\ length (closes (snd r1)) = 3%nat
  /\ length (closes (snd r2)) = 6%nat
  /\ count_occ Nat.eq_dec (closes (snd r2)) 0%nat = 2%nat.
Proof. cbv zeta. repeat split; vm_compute; reflexivity. Qed.

Lemma shutdown_event_closes_snapshot_witness :
  let r := shutdown_event Demo.demo_env Demo.world2 in
  fst r = Ok tt /\ pcs (snd r) = ∅
  /\ shutdown_event Demo.demo_env (snd r) = (Ok tt, snd r).
Proof.
  cbv zeta.
  apply (shutdown_event_closes_snapshot Demo.demo_env Demo.world2).
  intros c Hc. simpl.
  destruct (Nat.eqb_spec c 1) as [-> | _]; [| reflexivity].
  exfalso. revert Hc. apply (bool_decide_unpack (1%nat ∉ pcs Demo.world2)).
  vm_compute. reflexivity.
Defined.

Lemma discard_idempotent_witness :
  pcs_discard 1 Demo.world2 = (Ok tt, Demo.world2).
Proof.
  apply (discard_idempotent Demo.world2 1).
  apply (bool_decide_unpack (1%nat ∉ pcs Demo.world2)). vm_compute. reflexivity.
Defined.


Example audio_track_ignored :
  let track := {| track_id := 5; kind := "audio" |} in
  let w' := snd (deliver Demo.demo_env 0 (TrackEvent track) Demo.world2) in
  relay w' = [] /\ heap w' = heap Demo.world2.
Proof. cbv zeta. split; vm_compute; reflexivity. Qed.

Example video_track_frames :
  recv_n Demo.demo_env 4 {| vt_track := [4; 7; 8]%nat; vt_transform := "detect" |}
  = [Ok 4%nat; Ok 7%nat; Ok 8%nat; Raise (Exception "MediaStreamError" "")].
Proof. reflexivity. Qed.

Lemma data_uri_prefix_irrelevant_witness :
  detect_objects Demo.demo_env
    {| image := "data:image/png;base64," +:+ "iVBORw0KGgo="; queries := default_queries |}
    Demo.world0
  = detect_objects Demo.demo_env
      {| image := "iVBORw0KGgo="; queries := default_queries |} Demo.world0
  /\ fst (detect_objects Demo.demo_env
            {| image := "data:image/png;base64," +:+ "iVBORw0KGgo=";
               queries := default_queries |} Demo.world0)
     = Detections [ {| label := "dog"; score := 0.5%float;
                       box := [1%float; 2%float; 3%float; 4%float] |} ].
Proof.
  pose proof (data_uri_prefix_irrelevant Demo.demo_env "iVBORw0KGgo=" default_queries
                Demo.world0 eq_refl) as (_ & _ & Hsame & _ & Hdec).
  split; [exact Hsame |].
  exact (Hdec "iVBORw0KGgo=" "iVBORw0KGgo=" Demo.demo_yolo _
           eq_refl eq_refl eq_refl eq_refl).
Defined.

(** C6, counterexample: a box reported with confidence exactly 0.25 is not
    below the threshold, yet the response leaves it out; and one reported
    box with class index 80 turns the whole response into an error, so
    that no detection is returned at all. *)
Lemma threshold_and_table_boundaries :
  let edge := [ {| boxes := Some [ {| cls := 0; conf := 0.25%float; xyxy := Demo.box1 |} ] |} ] in
  let high := [ {| boxes := Some [ {| cls := 80; conf := 0.5%float; xyxy := Demo.box1 |} ] |} ] in
  Demo.demo_yolo "edge" conf_threshold iou_threshold = Ok edge
  /\ fst (detect_objects Demo.demo_env {| image := "edge"; queries := [] |} Demo.world0)
     = Detections []
  /\ spec_detections edge
     = [ {| label := "person"; score := 0.25%float;
            box := [1%float; 2%float; 3%float; 4%float] |} ]
  /\ fst (detect_objects Demo.demo_env {| image := "edge"; queries := [] |} Demo.world0)
     <> Detections (spec_detections edge)
  /\ Demo.demo_yolo "high" conf_threshold iou_threshold = Ok high
  /\ fst (detect_objects Demo.demo_env {| image := "high"; queries := [] |} Demo.world0)
     = JSONResponse 500 "list index out of range".
Proof.
  cbv zeta. repeat split; try (vm_compute; reflexivity).
  vm_compute. discriminate.
Qed.

Lemma detections_strictly_above_threshold_witness :
  fst (detect_objects Demo.demo_env {| image := "AAAA"; queries := [] |} Demo.world0)
  = Detections [ {| label := "dog"; score := 0.5%float;
                    box := [1%float; 2%float; 3%float; 4%float] |} ].
Proof.
  apply (detections_strictly_above_threshold Demo.demo_env
           {| image := "AAAA"; queries := [] |} Demo.world0
           "AAAA" "AAAA" "AAAA" Demo.demo_yolo
           [ {| boxes := Some [ {| cls := 16; conf := 0.5%float; xyxy := Demo.box1 |};
                                {| cls := 0; conf := 0.125%float; xyxy := Demo.box1 |} ] |} ]);
    try reflexivity.
  repeat constructor; unfold in_table; simpl; lia.
Defined.

Lemma detect_objects_total_witness :
  fst (detect_objects Demo.demo_env {| image := "high"; queries := [] |} Demo.world0)
  = JSONResponse 500 "list index out of range".
Proof.
  apply (proj1 (proj2 (detect_objects_total Demo.demo_env
                         {| image := "high"; queries := [] |} Demo.world0))
           "high" "high" "high" Demo.demo_yolo
           [ {| boxes := Some [ {| cls := 80; conf := 0.5%float; xyxy := Demo.box1 |} ] |} ]);
    try reflexivity.
  constructor. unfold outside_table. simpl. lia.
Defined.

Example detect_without_engine :
  fst (detect_objects Demo.demo_env {| image := "AAAA"; queries := [] |}
         {| pcs := ∅; relay := []; model := None; heap := ∅; closes := []; stdout := [] |})
  = JSONResponse 500 "'NoneType' object is not callable".
Proof. reflexivity. Qed.

Example detect_bad_payload :
  fst (detect_objects Demo.demo_env {| image := "data:image/png;base64,"; queries := [] |}
         Demo.world0)
  = JSONResponse 500 "Incorrect padding".
Proof. reflexivity. Qed.

Example queries_only_printed :
  stdout (snd (detect_objects Demo.demo_env {| image := "none"; queries := ["cat"] |} Demo.world0))
  = [LogProcessingImage (10, 10)%nat; LogRequestedObjects ["cat"]; LogAllDetected [];
     LogReturned 0; LogFinalCount 0].
Proof. reflexivity. Qed.

(** * Network helpers *)

Lemma probe_returns_or_raises (n : Net.NetEnv) : fst (Net.probe n) <> Net.Normal.
Proof.
  unfold Net.probe.
  destruct (Net.socket_connect n "8.8.8.8" 80); [discriminate |].
  destruct (Net.socket_getsockname n) as [ip | e]; [| discriminate].
  destruct (String.prefix "172." ip); discriminate.
Qed.

Lemma probe_never_resolves (n : Net.NetEnv) :
  List.filter Net.is_resolver (snd (Net.probe n)) = [].
Proof.
  unfold Net.probe.
  destruct (Net.socket_connect n "8.8.8.8" 80); [reflexivity |].
  destruct (Net.socket_getsockname n) as [ip | e]; [| reflexivity].
  destruct (String.prefix "172." ip); reflexivity.
Qed.

Lemma finally_close_returns_or_raises (n : Net.NetEnv) :
  fst (Net.finally_close n (Net.probe n)) <> Net.Normal.
Proof.
  unfold Net.finally_close. destruct (Net.socket_close n); [discriminate |].
  apply probe_returns_or_raises.
Qed.

Lemma filter_app_nil {A} (p : A -> bool) (xs ys : list A) :
  List.filter p xs = [] -> List.filter p ys = [] -> List.filter p (xs ++ ys) = [].
Proof. intros Hx Hy. now rewrite List.filter_app, Hx, Hy. Qed.

(** The outer [try] never reaches the statements after the inner [try]. *)
Lemma get_local_ip_try_shape (n : Net.NetEnv) :
  fst (Net.get_local_ip_try n) <> Net.Normal
  /\ List.filter Net.is_resolver (snd (Net.get_local_ip_try n)) = [].
Proof.
  unfold Net.get_local_ip_try.
  destruct (Net.truthy (Net.getenv n "HOST_IP")); [split; [discriminate | reflexivity] |].
  destruct (Net.socket_new n); [split; [discriminate | reflexivity] |].
  pose proof (finally_close_returns_or_raises n) as Hc.
  assert (Hr : List.filter Net.is_resolver (snd (Net.finally_close n (Net.probe n))) = []).
  { unfold Net.finally_close. destruct (Net.socket_close n); simpl;
      apply filter_app_nil; auto using probe_never_resolves. }
  destruct (fst (Net.finally_close n (Net.probe n))) eqn:E; [contradiction | |];
    simpl; (split; [discriminate | exact Hr]).
Qed.

(** X1: [get_local_ip] always returns a string, and the hostname
    resolution written after the inner [try] (lines 74-81) never runs: no
    resolver call is made, and the answer and everything done are the same
    whatever the resolver would say. *)
Theorem hostname_resolution_never_runs (n : Net.NetEnv)
    (gh : Exc string) (ghb : string -> Exc string) :
  (exists ip, fst (Net.get_local_ip n) = Some ip)
  /\ List.filter Net.is_resolver (snd (Net.get_local_ip n)) = []
  /\ Net.get_local_ip
       {| Net.getenv := Net.getenv n; Net.socket_new := Net.socket_new n;
          Net.socket_connect := Net.socket_connect n;
          Net.socket_getsockname := Net.socket_getsockname n;
          Net.socket_close := Net.socket_close n;
          Net.gethostname := gh; Net.gethostbyname := ghb;
          Net.qr_png := Net.qr_png n |}
     = Net.get_local_ip n.
Proof.
  split; [| split].
  - unfold Net.get_local_ip. destruct (get_local_ip_try_shape n) as [Hn _].
    destruct (fst (Net.get_local_ip_try n)); [contradiction | eauto | eauto].
  - unfold Net.get_local_ip. destruct (get_local_ip_try_shape n) as [Hn Hr].
    destruct (fst (Net.get_local_ip_try n)); simpl; [contradiction | exact Hr |].
    now apply filter_app_nil.
  - unfold Net.get_local_ip, Net.get_local_ip_try. simpl.
    destruct (Net.truthy (Net.getenv n "HOST_IP")); [reflexivity |].
    destruct (Net.socket_new n); [reflexivity |].
    pose proof (finally_close_returns_or_raises n) as Hc.
    change (Net.finally_close
              {| Net.getenv := Net.getenv n; Net.socket_new := None;
                 Net.socket_connect := Net.socket_connect n;
                 Net.socket_getsockname := Net.socket_getsockname n;
                 Net.socket_close := Net.socket_close n;
                 Net.gethostname := gh; Net.gethostbyname := ghb;
                 Net.qr_png := Net.qr_png n |}
              (Net.probe
                 {| Net.getenv := Net.getenv n; Net.socket_new := None;
                    Net.socket_connect := Net.socket_connect n;
                    Net.socket_getsockname := Net.socket_getsockname n;
                    Net.socket_close := Net.socket_close n;
                    Net.gethostname := gh; Net.gethostbyname := ghb;
                    Net.qr_png := Net.qr_png n |}))
      with (Net.finally_close n (Net.probe n)).
    destruct (fst (Net.finally_close n (Net.probe n))); [contradiction | reflexivity ..].
Qed.


(** X3: a socket that was created is closed exactly once, whatever the
    probe did (returned, or raised in [connect] or [getsockname]), and the
    close is the last thing done to it; with HOST_IP set no socket is
    touched at all. *)
Theorem socket_closed_exactly_once (n : Net.NetEnv) :
  (Net.truthy (Net.getenv n "HOST_IP") = None ->
   Net.socket_new n = None ->
   Net.count_ev Net.is_new (snd (Net.get_local_ip n)) = 1%nat
   /\ Net.count_ev Net.is_close (snd (Net.get_local_ip n)) = 1%nat
   /\ last (List.filter Net.is_sock (snd (Net.get_local_ip n))) = Some Net.SockClose)
  /\ (forall host_ip, Net.truthy (Net.getenv n "HOST_IP") = Some host_ip ->
      Net.get_local_ip n =
      (Some host_ip, [Net.Print ("Using HOST_IP from environment: " +:+ host_ip)])).
Proof.
  split.
  - unfold Net.get_local_ip, Net.get_local_ip_try. intros -> ->.
    pose proof (finally_close_returns_or_raises n) as Hc. revert Hc.
    unfold Net.finally_close, Net.probe, Net.count_ev.
    destruct (Net.socket_close n) as [e1 |];
      (destruct (Net.socket_connect n "8.8.8.8" 80) as [e2 |];
       [| destruct (Net.socket_getsockname n) as [cip | e3];
          [destruct (String.prefix "172." cip) |]]);
      simpl; intros Hc; try contradiction; repeat split; reflexivity.
  - intros host_ip H. unfold Net.get_local_ip, Net.get_local_ip_try. now rewrite H.
Qed.

(** X4: without HOST_IP, any failure on the way (the socket cannot be
    created, [connect], [getsockname] or [close] raises) gives "localhost";
    nothing is raised to the caller. *)
Theorem probe_failure_gives_localhost (n : Net.NetEnv) :
  Net.truthy (Net.getenv n "HOST_IP") = None ->
  (Net.socket_new n <> None \/ Net.socket_connect n "8.8.8.8" 80 <> None
   \/ (exists e, Net.socket_getsockname n = Raise e) \/ Net.socket_close n <> None) ->
  fst (Net.get_local_ip n) = Some "localhost"
  /\ exists e, last (snd (Net.get_local_ip n))
               = Some (Net.Print ("Error getting local IP: " +:+ exn_str e)).
Proof.
  unfold Net.get_local_ip, Net.get_local_ip_try. intros -> Hfail.
  destruct (Net.socket_new n) as [e0 |]; [simpl; split; [reflexivity | now exists e0] |].
  unfold Net.finally_close, Net.probe.
  destruct (Net.socket_close n) as [e1 |].
  - simpl. split; [reflexivity |]. exists e1.
    rewrite !app_comm_cons. apply last_snoc.
  - destruct (Net.socket_connect n "8.8.8.8" 80) as [e2 |].
    + simpl. split; [reflexivity | now exists e2].
    + destruct (Net.socket_getsockname n) as [cip | e3].
      * exfalso. destruct Hfail as [H | [H | [[e H] | H]]]; congruence.
      * simpl. split; [reflexivity | now exists e3].
Qed.

Lemma pretty_https_port : pretty 3443%nat = "3443".
Proof. vm_compute. reflexivity. Qed.

(** X5: for the same environment, the URL that GET /qr-code encodes is the
    [phone_url] that GET /network-info reports; and in that report the
    backward-compatible fields repeat the current ones and each phone URL
    is its base URL followed by "/phone". *)
Theorem qr_code_encodes_reported_phone_url (n : Net.NetEnv) :
  let info := fst (Net.get_network_info n) in
  fst (Net.get_qr_code n) =
    match Net.qr_png n (Net.phone_url info) with
    | Ok qr_bytes =>
        Ok {| Net.content := qr_bytes; Net.media_type := "image/png";
              Net.headers := [("Content-Disposition", "inline; filename=phone_qr.png")] |}
    | Raise e => Raise e
    end
  /\ In (Net.Print ("Generating QR code for: " +:+ Net.phone_url info))
        (snd (Net.get_qr_code n))
  /\ Net.local_ip info = Net.real_ip info
  /\ Net.frontend_url info = Net.real_ip_url info
  /\ Net.phone_url info = Net.real_ip_phone_url info
  /\ Net.phone_url info = Net.frontend_url info +:+ "/phone"
  /\ Net.localhost_phone_url info = Net.localhost_url info +:+ "/phone".
Proof.
  cbv zeta. unfold Net.get_network_info, Net.get_qr_code.
  destruct (Net.get_local_ip n) as [ip evs]. cbn [fst snd Net.phone_url
    Net.local_ip Net.real_ip Net.frontend_url Net.real_ip_url
    Net.real_ip_phone_url Net.localhost_phone_url Net.localhost_url].
  rewrite pretty_https_port.
  change ("https://" +:+ Net.fmt ip +:+ ":" +:+ "3443" +:+ "/phone")
    with ("https://" +:+ Net.fmt ip +:+ ":3443/phone").
  split; [| split].
  - destruct (Net.qr_png n _); reflexivity.
  - destruct (Net.qr_png n _); simpl; apply in_or_app; right; now left.
  - repeat split.
    change ("https://" +:+ Net.fmt ip +:+ ":3443/phone")
      with ("https://" +:+ (Net.fmt ip +:+ (":3443" +:+ "/phone"))).
    change ("https://" +:+ Net.fmt ip +:+ ":" +:+ "3443")
      with ("https://" +:+ (Net.fmt ip +:+ ":3443")).
    now rewrite <- !append_assoc.
Qed.

(** * Further properties of POST /detect *)

Lemma split_go_nonempty (sep : string) (s : string) :
  forall skip cur, Py.split_go sep skip cur s <> [].
Proof.
  induction s as [| c s IH]; intros skip cur; cbn [Py.split_go]; [discriminate |].
  destruct skip; [| apply IH].
  destruct (String.prefix sep (String c s)); [discriminate | apply IH].
Qed.

Lemma split_go_two_parts (sep : string) (s : string) :
  sep <> "" ->
  forall cur, Py.contains sep s = true ->
  exists a b rest, Py.split_go sep 0 cur s = a :: b :: rest.
Proof.
  intros Hsep. induction s as [| c s IH]; intros cur Hc.
  - destruct sep; [contradiction | discriminate].
  - cbn [Py.contains] in Hc. cbn [Py.split_go].
    destruct (String.prefix sep (String c s)).
    + pose proof (split_go_nonempty sep s (String.length sep - 1) "") as Hne.
      destruct (Py.split_go sep (String.length sep - 1) "" s) as [| b rest];
        [contradiction | eauto].
    + cbn [orb] in Hc. apply IH, Hc.
Qed.

Lemma getitem_second {A} (a b : A) (rest : list A) :
  Py.getitem (a :: b :: rest) 1 = Ok b.
Proof.
  unfold Py.getitem. cbn [length].
  destruct (Z.ltb_spec 1 0); [lia |].
  destruct (Z.leb_spec 0 1); [| lia].
  destruct (Z.ltb_spec 1 (Z.of_nat (S (S (length rest))))); [reflexivity | lia].
Qed.

(** X6: stripping the data-URI prefix never raises: whenever the payload
    contains "base64,", [split("base64,")] has a part of index 1. *)
Theorem strip_data_uri_never_raises (image_data : string) :
  exists d, strip_data_uri image_data = Ok d.
Proof.
  unfold strip_data_uri.
  destruct (Py.contains "base64," image_data) eqn:E; [| eauto].
  destruct (split_go_two_parts "base64," image_data ltac:(discriminate) "" E)
    as (a & b & rest & Hs).
  unfold Py.split, exc_bind. rewrite Hs. exists b. apply getitem_second.
Qed.

Lemma prefix_marker_comma (s : string) :
  String.prefix "base64," s = true ->
  exists c1 c2 c3 c4 c5 c6 t,
    s = String c1 (String c2 (String c3 (String c4 (String c5 (String c6 (String "," t)))))).
Proof.
  intros H.
  repeat (destruct s as [| ?c s]; [discriminate |];
          cbn [String.prefix] in H;
          match type of H with
          | (if ascii_dec ?a ?b then _ else _) = true =>
              destruct (ascii_dec a b) as [<- | _]; [| discriminate]
          end).
  eauto 10.
Qed.

(** The marker cannot start inside a comma-free text that precedes it. *)
Lemma no_marker_inside_prefix (X rest : string) :
  X <> "" ->
  ~ In ","%char (list_ascii_of_string X) ->
  String.prefix "base64," (X +:+ "base64," +:+ rest) = false.
Proof.
  intros Hne HX.
  destruct (String.prefix "base64," (X +:+ "base64," +:+ rest)) eqn:E; [| reflexivity].
  exfalso. apply prefix_marker_comma in E as (c1 & c2 & c3 & c4 & c5 & c6 & t & E).
  repeat (destruct X as [| ?x X];
          [ try contradiction; cbv [String.append] in E; discriminate
          | change (String x (X +:+ "base64," +:+ rest) = _) in E || idtac;
            cbn [String.append] in E ]).
  all: cbv [String.append] in E; fold String.append in E.
  all: injection E as -> -> -> -> -> -> -> _.
  all: apply HX; simpl; tauto.
Qed.

Lemma contains_after (sep X s : string) :
  String.prefix sep s = true -> Py.contains sep (X +:+ s) = true.
Proof.
  intros Hs. induction X as [| c X IH].
  - change ("" +:+ s) with s. destruct s; cbn [Py.contains]; now rewrite Hs.
  - change (String c X +:+ s) with (String c (X +:+ s)).
    cbn [Py.contains]. rewrite IH. apply orb_true_r.
Qed.

Lemma prefix_append (p s : string) : String.prefix p (p +:+ s) = true.
Proof.
  induction p as [| a p IH]; [apply prefix_nil |].
  change (String a p +:+ s) with (String a (p +:+ s)). cbn [String.prefix].
  destruct (ascii_dec a a); [exact IH | contradiction].
Qed.

Lemma split_go_at_marker (cur rest : string) :
  Py.split_go "base64," 0 cur ("base64," +:+ rest)
  = cur :: Py.split_go "base64," 0 "" rest.
Proof.
  cbv [String.append]. cbn [Py.split_go].
  change (String "b" (String "a" (String "s" (String "e" (String "6" (String "4" (String "," rest)))))))
    with ("base64," +:+ rest).
  rewrite prefix_append. reflexivity.
Qed.

Lemma split_go_comma_free_prefix (X rest : string) :
  ~ In ","%char (list_ascii_of_string X) ->
  forall cur,
    Py.split_go "base64," 0 cur (X +:+ "base64," +:+ rest)
    = (cur +:+ X) :: Py.split_go "base64," 0 "" rest.
Proof.
  induction X as [| c X IH]; intros HX cur.
  - change ("" +:+ "base64," +:+ rest) with ("base64," +:+ rest).
    rewrite append_nil_r. apply split_go_at_marker.
  - pose proof (no_marker_inside_prefix (String c X) rest ltac:(discriminate) HX) as Hno.
    change (String c X +:+ "base64," +:+ rest)
      with (String c (X +:+ "base64," +:+ rest)) in *.
    cbn [Py.split_go]. rewrite Hno.
    rewrite IH by (intros Hin; apply HX; now right).
    now rewrite append_assoc.
Qed.

(** X7: any data-URI head works, not only "data:image/png;": for a head
    without a comma (a media type and its parameters) and a base64 text
    [B], the payload "<head>base64,<B>" is reduced to [B], and the request
    is answered as the bare payload [B] is. What is decoded is [B]: a
    refusal of [B] by [b64decode] is the 500 of the request, and when [B]
    decodes to an image the response is made from the engine's output. *)
Theorem any_media_type_prefix_is_stripped
    {Frame Image ndarray RelayState Proxy : Type}
    (env : @Env Frame Image ndarray RelayState Proxy)
    (head B : string) (qs : list string) (w : @World ndarray RelayState Proxy) :
  ~ In ","%char (list_ascii_of_string head) ->
  b64_text B = true ->
  strip_data_uri (head +:+ "base64," +:+ B) = Ok B
  /\ detect_objects env {| image := head +:+ "base64," +:+ B; queries := qs |} w
     = detect_objects env {| image := B; queries := qs |} w
  /\ (forall e, b64decode env B = Raise e ->
      fst (detect_objects env {| image := head +:+ "base64," +:+ B; queries := qs |} w)
      = JSONResponse 500 (exn_str e))
  /\ (forall image_bytes img yolo results,
      b64decode env B = Ok image_bytes ->
      Image_open_RGB env image_bytes = Ok img ->
      model w = Some yolo ->
      yolo (np_array env img) conf_threshold iou_threshold = Ok results ->
      fst (detect_objects env {| image := head +:+ "base64," +:+ B; queries := qs |} w)
      = match process_results results [] [] with
        | Ok (detections, _) => Detections detections
        | Raise e => JSONResponse 500 (exn_str e)
        end).
Proof.
  intros Hhead HB. apply b64_text_no_comma in HB.
  assert (Hs : strip_data_uri (head +:+ "base64," +:+ B) = Ok B).
  { unfold strip_data_uri.
    rewrite (contains_after "base64," head ("base64," +:+ B) (prefix_append _ _)).
    unfold Py.split, exc_bind.
    rewrite (split_go_comma_free_prefix head B Hhead "").
    rewrite (split_go_no_match "base64," "" B ","%char comma_in_marker HB).
    apply getitem_second. }
  split; [exact Hs |]. split.
  - unfold detect_objects, detect_try, bind, lift. cbn [image queries].
    now rewrite Hs, (strip_bare_payload B HB).
  - exact (detect_objects_decodes_stripped env
             {| image := head +:+ "base64," +:+ B; queries := qs |} w B Hs).
Qed.

(** *** What the result loop returns *)

Lemma getitem_In {A} (l : list A) (i : Z) (x : A) :
  Py.getitem l i = Ok x -> In x l.
Proof.
  unfold Py.getitem.
  destruct (_ && _)%bool; [| discriminate].
  destruct (nth_error l _) eqn:E; [| discriminate].
  intros [= <-]. eapply nth_error_In, E.
Qed.

Lemma detection_item_well_formed (name : string) (b : Box) :
  In name class_names ->
  PrimFloat.ltb conf_threshold (conf b) = true ->
  well_formed_item (detection_item name b).
Proof.
  intros Hn Hc. unfold well_formed_item, detection_item.
  destruct (xyxy b) as [[[x1 y1] x2] y2]. simpl. auto.
Qed.

Lemma process_boxes_well_formed (bs : list Box) :
  forall ds ads ds' ads',
    Forall well_formed_item ds ->
    process_boxes bs ds ads = Ok (ds', ads') ->
    Forall well_formed_item ds' /\ (length ds' <= length ds + length bs)%nat.
Proof.
  induction bs as [| b bs IH]; intros ds ads ds' ads' Hds; simpl.
  - intros [= <- <-]. split; [exact Hds | lia].
  - destruct (Py.getitem class_names (cls b)) as [name |] eqn:E; [| discriminate].
    apply getitem_In in E.
    destruct (PrimFloat.ltb conf_threshold (conf b)) eqn:Hc; intros Hp.
    + apply IH in Hp as [H1 H2].
      * split; [exact H1 |]. rewrite length_app in H2. simpl in H2. lia.
      * apply Forall_app. split; [exact Hds |].
        constructor; [| constructor]. now apply detection_item_well_formed.
    + apply IH in Hp as [H1 H2]; [| exact Hds]. split; [exact H1 | lia].
Qed.

Lemma getitem_indexable (b : Box) :
  indexable b -> Py.getitem class_names (cls b) = Ok (py_label b).
Proof.
  intros Hb. unfold indexable in Hb. unfold Py.getitem, py_label.
  change (Z.of_nat (length class_names)) with 80%Z.
  destruct (Z.ltb_spec (cls b) 0).
  - destruct (Z.leb_spec 0 (cls b + 80)); [| lia].
    destruct (Z.ltb_spec (cls b + 80) 80); [| lia].
    cbn [andb]. rewrite (nth_error_nth' class_names ""); [reflexivity |].
    change (length class_names) with 80%nat. lia.
  - destruct (Z.leb_spec 0 (cls b)); [| lia].
    destruct (Z.ltb_spec (cls b) 80); [| lia].
    cbn [andb]. rewrite (nth_error_nth' class_names ""); [reflexivity |].
    change (length class_names) with 80%nat. lia.
Qed.

Lemma process_boxes_indexable (bs : list Box) :
  Forall indexable bs ->
  forall ds ads,
    process_boxes bs ds ads =
    Ok ((ds ++ map py_item (List.filter above_threshold bs))%list,
        (ads ++ map (fun b => (py_label b, conf b)) bs)%list).
Proof.
  induction 1 as [| b bs Hb _ IH]; intros ds ads; simpl.
  - now rewrite !app_nil_r.
  - rewrite (getitem_indexable b Hb). unfold above_threshold at 1.
    destruct (PrimFloat.ltb conf_threshold (conf b)); rewrite IH.
    + simpl. now rewrite <- !app_assoc.
    + now rewrite <- !app_assoc.
Qed.

Lemma indexable_or_outside (bs : list Box) :
  Forall indexable bs \/ Exists outside_table bs.
Proof.
  induction bs as [| b bs [IH | IH]]; [left; constructor | |].
  - destruct (Z_lt_dec (cls b) (-80)) as [H1 | H1];
      [right; left; unfold outside_table; lia |].
    destruct (Z_le_dec 80 (cls b)) as [H2 | H2];
      [right; left; unfold outside_table; lia |].
    left. constructor; [unfold indexable; lia | exact IH].
  - right. now right.
Qed.

Lemma indexable_not_outside (bs : list Box) :
  Forall indexable bs -> ~ Exists outside_table bs.
Proof.
  intros Hf He. apply Exists_exists in He as (b & Hin & Hout).
  rewrite Forall_forall in Hf. specialize (Hf b Hin).
  unfold indexable, outside_table in *. lia.
Qed.

Section MoreDetectionProperties.

Context {Frame Image ndarray RelayState Proxy : Type}.
Variable env : @Env Frame Image ndarray RelayState Proxy.

Local Abbreviation World := (@World ndarray RelayState Proxy).

Lemma detect_try_ok_inv (detection : DetectionRequest) (w : World)
    (ds : list DetectionItem) :
  fst (detect_try env detection w) = Ok ds ->
  exists results ads, process_results results [] [] = Ok (ds, ads).
Proof.
  unfold detect_try, bind, lift, print, call_model.
  destruct (strip_data_uri (image detection)) as [d |]; [| discriminate].
  destruct (b64decode env d) as [b |]; [| discriminate].
  destruct (Image_open_RGB env b) as [i |]; [| discriminate].
  cbn. destruct (model w) as [yolo |]; [| discriminate].
  destruct (yolo _ _ _) as [results |]; [| discriminate].
  cbn. destruct (process_results results [] []) as [[ds' ads] |] eqn:E; [| discriminate].
  simpl. intros [= <-]. eauto.
Qed.

(** X8: every detection a 200 response carries has a score strictly above
    0.25, a label that is an entry of [class_names] and a box of exactly
    four coordinates. *)
Theorem returned_detections_well_formed
    (detection : DetectionRequest) (w : World) (ds : list DetectionItem) :
  fst (detect_objects env detection w) = Detections ds ->
  Forall well_formed_item ds.
Proof.
  rewrite detect_objects_response.
  destruct (fst (detect_try env detection w)) as [ds' |] eqn:E; [| discriminate].
  intros [= <-]. apply detect_try_ok_inv in E as (results & ads & Hp).
  rewrite process_results_all_boxes in Hp.
  now apply process_boxes_well_formed in Hp as [H _].
Qed.

(** X9: once the payload is decoded and the engine has answered, the
    request succeeds exactly when every reported class index, of boxes
    below the threshold too, is one Python accepts on the 80-entry table
    (-80..79). It then lists the boxes strictly above 0.25 in the engine's
    order, a negative index being labelled from the end of the table, and
    never more detections than boxes; otherwise it is a status 500 with
    "list index out of range". *)
Theorem detect_succeeds_iff_indexable
    (detection : DetectionRequest) (w : World)
    (image_data image_bytes : string) (img : Image) (yolo : YOLO)
    (results : list Result) :
  strip_data_uri (image detection) = Ok image_data ->
  b64decode env image_data = Ok image_bytes ->
  Image_open_RGB env image_bytes = Ok img ->
  model w = Some yolo ->
  yolo (np_array env img) conf_threshold iou_threshold = Ok results ->
  (Forall indexable (all_boxes results) ->
     fst (detect_objects env detection w)
     = Detections (map py_item (List.filter above_threshold (all_boxes results)))
     /\ (length (map py_item (List.filter above_threshold (all_boxes results)))
         <= length (all_boxes results))%nat)
  /\ (~ Forall indexable (all_boxes results) ->
     fst (detect_objects env detection w) = JSONResponse 500 "list index out of range")
  /\ ((exists ds, fst (detect_objects env detection w) = Detections ds)
      <-> Forall indexable (all_boxes results)).
Proof.
  intros H1 H2 H3 H4 H5.
  rewrite detect_objects_response.
  rewrite (detect_try_stages env detection w _ _ _ _ _ H1 H2 H3 H4 H5).
  assert (Hyes : Forall indexable (all_boxes results) ->
                 match process_boxes (all_boxes results) [] [] with
                 | Ok (d, _) => Ok d
                 | Raise e => Raise e
                 end = Ok (map py_item (List.filter above_threshold (all_boxes results)))).
  { intros Hf. now rewrite (process_boxes_indexable _ Hf). }
  assert (Hno : ~ Forall indexable (all_boxes results) ->
                match process_boxes (all_boxes results) [] [] with
                | Ok (d, _) => Ok d
                | Raise e => Raise e
                end = Raise IndexError).
  { intros Hf. destruct (indexable_or_outside (all_boxes results)) as [H | H];
      [contradiction |]. now rewrite (process_boxes_outside_table _ H). }
  split; [| split].
  - intros Hf. rewrite (Hyes Hf). split; [reflexivity |].
    rewrite length_map. apply List.filter_length_le.
  - intros Hf. now rewrite (Hno Hf).
  - split.
    + intros [ds Hds].
      destruct (indexable_or_outside (all_boxes results)) as [H | H]; [exact H |].
      rewrite Hno in Hds; [discriminate |].
      intros Hf. now apply (indexable_not_outside _ Hf).
    + intros Hf. rewrite (Hyes Hf). eauto.
Qed.

(** X10: while no engine is loaded ([model] is still [None]) no request
    gets a 200: every answer is a status 500; for a payload that decodes
    to an image the message is that [None] is not callable. *)
Theorem no_engine_no_detections (detection : DetectionRequest) (w : World) :
  model w = None ->
  (exists msg, fst (detect_objects env detection w) = JSONResponse 500 msg)
  /\ (forall image_data image_bytes img,
        strip_data_uri (image detection) = Ok image_data ->
        b64decode env image_data = Ok image_bytes ->
        Image_open_RGB env image_bytes = Ok img ->
        fst (detect_objects env detection w)
        = JSONResponse 500 "'NoneType' object is not callable").
Proof.
  intros Hm. split.
  - unfold detect_objects, detect_try, bind, lift, print, call_model.
    destruct (strip_data_uri (image detection)) as [d |]; [| simpl; eauto].
    destruct (b64decode env d) as [b |]; [| simpl; eauto].
    destruct (Image_open_RGB env b) as [i |]; [| simpl; eauto].
    cbn. rewrite Hm. simpl. eauto.
  - intros d b i H1 H2 H3.
    unfold detect_objects, detect_try, bind, lift, print, call_model.
    rewrite H1, H2, H3. cbn. rewrite Hm. reflexivity.
Qed.

(** X11: the answer to a detection request depends on the process state
    only through the loaded engine: with the same engine, any two states
    of the Registry, the relay, the connections and stdout give the same
    response. *)
Theorem detection_independent_of_signaling_state
    (detection : DetectionRequest) (w1 w2 : World) :
  model w1 = model w2 ->
  fst (detect_objects env detection w1) = fst (detect_objects env detection w2).
Proof.
  intros Hm. unfold detect_objects, detect_try, bind, lift, print, call_model.
  destruct (strip_data_uri (image detection)) as [d |]; [| reflexivity].
  destruct (b64decode env d) as [b |]; [| reflexivity].
  destruct (Image_open_RGB env b) as [i |]; [| reflexivity].
  cbn. rewrite Hm. destruct (model w2) as [yolo |]; [| reflexivity].
  destruct (yolo _ _ _) as [results |]; [| reflexivity].
  cbn. destruct (process_results results [] []) as [[ds ads] |]; reflexivity.
Qed.

End MoreDetectionProperties.

(** * Further properties of the signaling side *)

Section LocalSteps.

Context {Frame Image ndarray RelayState Proxy : Type}.
Variable env : @Env Frame Image ndarray RelayState Proxy.

Local Abbreviation World := (@World ndarray RelayState Proxy).
Local Abbreviation RTCPeerConnection := (@RTCPeerConnection Proxy).
Local Abbreviation M := (@M ndarray RelayState Proxy).

Lemma steps_on_refl (c : nat) (w : World) : steps_on c w w.
Proof. repeat split; auto. Qed.

Lemma steps_on_trans (c : nat) (w1 w2 w3 : World) :
  steps_on c w1 w2 -> steps_on c w2 w3 -> steps_on c w1 w3.
Proof.
  intros (A1 & A2 & A3 & A4 & A5) (B1 & B2 & B3 & B4 & B5).
  split; [| split; [| split; [| split]]].
  - intros c' Hc'. now rewrite B1, A1.
  - intros c' Hc'. now rewrite B2, A2.
  - auto.
  - now rewrite B4, A4.
  - now rewrite B5, A5.
Qed.

Lemma local_frame (c : nat) {A} (m : M A) :
  (forall w, pcs (snd (m w)) = pcs w /\ heap (snd (m w)) = heap w
             /\ model (snd (m w)) = model w) ->
  local_to c m.
Proof.
  intros Hm w. destruct (Hm w) as (Hp & Hh & Hmo).
  unfold steps_on. rewrite Hp, Hh, Hmo. repeat split; auto.
Qed.

Lemma local_bind (c : nat) {A B} (m : M A) (k : A -> M B) :
  local_to c m -> (forall a, local_to c (k a)) -> local_to c (bind m k).
Proof.
  intros Hm Hk w. unfold bind. specialize (Hm w).
  destruct (m w) as [[a | e] w1]; simpl in *; [| exact Hm].
  eapply steps_on_trans; [exact Hm | apply Hk].
Qed.

Lemma local_ret (c : nat) {A} (a : A) : local_to c (ret a : M A).
Proof. apply local_frame. intros w. repeat split. Qed.

Lemma local_raise (c : nat) {A} (e : exn) : local_to c (raise e : M A).
Proof. apply local_frame. intros w. repeat split. Qed.

Lemma local_lift (c : nat) {A} (r : Exc A) : local_to c (lift r : M A).
Proof. apply local_frame. intros w. repeat split. Qed.

Lemma local_lift_opt (c : nat) (r : option exn) : local_to c (lift_opt r : M unit).
Proof. apply local_frame. intros w. destruct r; repeat split. Qed.

Lemma local_print (c : nat) (l : LogLine) : local_to c (print l : M unit).
Proof. apply local_frame. intros w. repeat split. Qed.

Lemma local_get_pc (c c' : nat) : local_to c (get_pc c' : M _).
Proof.
  apply local_frame. intros w. unfold get_pc. destruct (heap w !! c'); repeat split.
Qed.

Lemma local_pc_close (c : nat) : local_to c (pc_close env c).
Proof.
  intros w. destruct (pc_close_fields env c w) as (P1 & _ & _ & P4 & P5 & P6).
  split; [exact P6 |]. rewrite P1. split; [tauto |]. split; [tauto |].
  split; [| exact P4].
  rewrite <- !elem_of_dom. now rewrite P5.
Qed.

Lemma local_subscribe (c : nat) (t : MediaStreamTrack) : local_to c (subscribe env t).
Proof.
  apply local_frame. intros w. unfold subscribe.
  destruct (relay_subscribe env (relay w) t). repeat split.
Qed.

Lemma local_update_pc (c : nat) (f : RTCPeerConnection -> RTCPeerConnection) :
  local_to c (update_pc c f : M unit).
Proof.
  intros w. unfold update_pc, bind, get_pc.
  destruct (heap w !! c) as [pc |] eqn:Hc; simpl; [| apply steps_on_refl].
  split; [| split; [| split; [| split]]]; auto.
  - intros c' Hc'. now apply lookup_insert_ne.
  - cbn [heap set_heap]. rewrite lookup_insert_eq, Hc. split; eauto.
Qed.

Lemma local_pcs_discard (c : nat) : local_to c (pcs_discard c : M unit).
Proof.
  intros w. unfold pcs_discard. simpl.
  split; [| split; [| split; [| split]]]; auto; set_solver.
Qed.

Lemma local_as_task (c : nat) (m : M unit) : local_to c m -> local_to c (as_task m).
Proof. intros Hm w. exact (Hm w). Qed.

Lemma local_on_connectionstatechange (c : nat) :
  local_to c (on_connectionstatechange env c).
Proof.
  unfold on_connectionstatechange.
  apply local_bind; [apply local_get_pc |]. intros pc.
  apply local_bind; [apply local_print |]. intros _.
  destruct (String.eqb (connectionState pc) "failed"); [| apply local_ret].
  apply local_bind; [apply local_pc_close |]. intros _. apply local_pcs_discard.
Qed.

Lemma local_on_track (c : nat) (t : MediaStreamTrack) : local_to c (on_track env c t).
Proof.
  unfold on_track.
  apply local_bind; [apply local_print |]. intros _.
  destruct (String.eqb (kind t) "video"); [| apply local_ret].
  apply local_bind; [apply local_subscribe |]. intros p. apply local_update_pc.
Qed.

Lemma local_deliver (c : nat) (ev : Event) : local_to c (deliver env c ev).
Proof.
  destruct ev as [t | s]; unfold deliver.
  - apply local_bind; [apply local_get_pc |]. intros pc.
    destruct (has_on_track pc); [apply local_on_track | apply local_ret].
  - apply local_bind; [apply local_update_pc |]. intros _.
    apply local_bind; [apply local_get_pc |]. intros pc.
    destruct (has_on_connectionstatechange pc); [| apply local_ret].
    apply local_as_task, local_on_connectionstatechange.
Qed.

Lemma local_deliver_all (c : nat) (evs : list Event) : local_to c (deliver_all env c evs).
Proof.
  induction evs as [| ev evs IH]; simpl; [apply local_ret |].
  apply local_bind; [apply local_deliver | intros _; exact IH].
Qed.

Lemma local_negotiate (c : nat) (d : RTCSessionDescription) :
  local_to c (negotiate env c d).
Proof.
  unfold negotiate. apply local_bind.
  - unfold setRemoteDescription. destruct (setRemoteDescription_t env d) as [evs r].
    apply local_bind; [apply local_deliver_all |]. intros _.
    apply local_bind; [apply local_lift |]. intros kept. apply local_update_pc.
  - intros _. apply local_bind.
    + unfold createAnswer. apply local_bind; [apply local_get_pc |]. intros pc.
      destruct (createAnswer_t env (remoteDescription pc)) as [evs r].
      apply local_bind; [apply local_deliver_all | intros _; apply local_lift].
    + intros answer. apply local_bind.
      * unfold setLocalDescription. destruct (setLocalDescription_t env answer) as [evs r].
        apply local_bind; [apply local_deliver_all |]. intros _.
        apply local_bind; [apply local_lift |]. intros d'. apply local_update_pc.
      * intros _. apply local_bind; [apply local_get_pc |]. intros o.
        destruct (localDescription o); [apply local_ret | apply local_raise].
Qed.

(** The state in which the negotiation starts: the new object is the only
    change to the heap, its registration the only change to the Registry. *)
Lemma offer_prologue_frame (params : OfferModel) (w : World) :
  description_check (offer_sdp params) (offer_type params) = None ->
  exists w4 : World,
    offer env params w =
    negotiate env (fresh (dom (heap w)))
              {| sdp := offer_sdp params; type := offer_type params |} w4
    /\ heap w4 = <[fresh (dom (heap w)) := attach_on_track
                     (attach_on_connectionstatechange new_pc)]> (heap w)
    /\ pcs w4 = {[fresh (dom (heap w))]} ∪ pcs w
    /\ closes w4 = closes w /\ relay w4 = relay w /\ model w4 = model w.
Proof.
  intros Hd.
  unfold offer, bind, RTCSessionDescription_new, bind, lift_opt. rewrite Hd.
  unfold ret, RTCPeerConnection_new, pcs_add, update_pc, bind, get_pc. simpl.
  rewrite lookup_insert_eq. simpl. rewrite lookup_insert_eq. simpl.
  eexists. split; [reflexivity |]. simpl.
  rewrite !insert_insert_eq. auto.
Qed.

(** X12: a call of [offer] leaves every other connection alone: for each
    identity other than the new one, the connection object and its
    membership of the Registry are as before the call, and the engine is
    the same, whether the call returned or raised. *)
Theorem offer_leaves_other_connections (params : OfferModel) (w : World) (c' : nat) :
  c' <> fresh (dom (heap w)) ->
  heap (snd (offer env params w)) !! c' = heap w !! c'
  /\ (c' ∈ pcs (snd (offer env params w)) <-> c' ∈ pcs w)
  /\ model (snd (offer env params w)) = model w.
Proof.
  intros Hc'.
  destruct (description_check (offer_sdp params) (offer_type params)) as [e |] eqn:Hd.
  - rewrite (offer_rejected env params w e Hd). simpl. auto.
  - destruct (offer_prologue_frame params w Hd) as (w4 & -> & Hh & Hp & _ & _ & Hm).
    destruct (local_negotiate (fresh (dom (heap w)))
                {| sdp := offer_sdp params; type := offer_type params |} w4)
      as (L1 & L2 & _ & _ & L5).
    split; [| split].
    + rewrite (L1 c' Hc'), Hh. now apply lookup_insert_ne.
    + rewrite (L2 c' Hc'), Hp. set_solver.
    + now rewrite L5.
Qed.

End LocalSteps.

Section Invariants.

Context {Frame Image ndarray RelayState Proxy : Type}.
Variable env : @Env Frame Image ndarray RelayState Proxy.

Local Abbreviation World := (@World ndarray RelayState Proxy).
Local Abbreviation RTCPeerConnection := (@RTCPeerConnection Proxy).

Lemma observed_same_object (w w' : World) (c : nat) :
  heap w' !! c = heap w !! c -> observed w c -> observed w' c.
Proof. intros Hh (pc & Hpc). exists pc. now rewrite Hh. Qed.

Lemma registry_inv_wf (w : World) : registry_inv w -> registry_wf w.
Proof.
  intros Hinv c Hc. destruct (Hinv c Hc) as (pc & Hpc & _).
  apply elem_of_dom. eauto.
Qed.

Lemma detect_objects_frame (detection : DetectionRequest) (w : World) :
  pcs (snd (detect_objects env detection w)) = pcs w
  /\ heap (snd (detect_objects env detection w)) = heap w.
Proof.
  unfold detect_objects, detect_try, bind, lift, print, call_model.
  destruct (strip_data_uri (image detection)) as [d |]; [| simpl; tauto].
  destruct (b64decode env d) as [b |]; [| simpl; tauto].
  destruct (Image_open_RGB env b) as [i |]; [| simpl; tauto].
  cbn. destruct (model w) as [yolo |]; [| simpl; tauto].
  destruct (yolo _ _ _) as [results |]; [| simpl; tauto].
  cbn. destruct (process_results results [] []) as [[ds ads] |]; simpl; tauto.
Qed.

Lemma shutdown_event_frame (w : World) :
  dom (heap (snd (shutdown_event env w))) = dom (heap w)
  /\ (pcs (snd (shutdown_event env w)) = pcs w \/ pcs (snd (shutdown_event env w)) = ∅)
  /\ (fst (shutdown_event env w) = Ok tt -> pcs (snd (shutdown_event env w)) = ∅).
Proof.
  unfold shutdown_event, bind.
  destruct (gather_closes_world env (elements (pcs w)) w) as (G1 & _ & _ & _ & G5 & _).
  destruct (gather (map (pc_close env) (elements (pcs w))) w) as [rs w1].
  simpl in G1, G5. destruct rs; simpl; [auto |].
  split; [exact G5 |]. split; [auto | discriminate].
Qed.

Lemma offer_keeps_registry_inv (params : OfferModel) (w : World) :
  registry_inv w -> registry_inv (snd (offer env params w)).
Proof.
  intros Hinv.
  destruct (description_check (offer_sdp params) (offer_type params)) as [e |] eqn:Hd.
  - now rewrite (offer_rejected env params w e Hd).
  - intros c0 Hc0.
    destruct (decide (c0 = fresh (dom (heap w)))) as [-> | Hne].
    + destruct (offer_footprint env params w Hd) as (Hobs & _). exact (Hobs Hc0).
    + destruct (offer_prologue_frame env params w Hd) as (w4 & E & Hh & Hp & _).
      rewrite E in Hc0 |- *.
      destruct (local_negotiate env (fresh (dom (heap w)))
                  {| sdp := offer_sdp params; type := offer_type params |} w4)
        as (L1 & L2 & _).
      apply L2 in Hc0; [| exact Hne]. rewrite Hp in Hc0.
      assert (Hin : c0 ∈ pcs w) by set_solver.
      apply (observed_same_object w); [| now apply Hinv].
      rewrite (L1 c0 Hne), Hh. now apply lookup_insert_ne.
Qed.

Lemma deliver_keeps_registry_inv (c : nat) (ev : Event) (w : World) :
  registry_inv w -> registry_inv (snd (deliver env c ev w)).
Proof.
  intros Hinv c0 Hc0.
  destruct (local_deliver env c ev w) as (L1 & L2 & L3 & _).
  destruct (decide (c0 = c)) as [-> | Hne].
  - assert (Hs : is_Some (heap w !! c)).
    { destruct (Hinv c (L3 Hc0)) as (pc & Hpc & _). eauto. }
    destruct (keeps_deliver env c False ev ltac:(tauto) w Hs) as (_ & _ & Hobs & _).
    apply Hobs; [apply Hinv | exact Hc0].
  - apply (observed_same_object w); [now apply L1 |].
    apply Hinv. now apply L2.
Qed.

(** X13: every connection in the Registry is an allocated object with both
    observers attached: this holds when the Registry is empty and is kept
    by [offer], by the delivery of any event to any connection, by
    [detect_objects], and by a [shutdown_event] that returns. A
    [shutdown_event] that raises may leave closed connections, whose
    listeners the close has removed, in the Registry; that every registered
    connection is an allocated object is kept even then. *)
Theorem registered_connections_stay_observed (w : World) :
  (pcs w = ∅ -> registry_inv w)
  /\ (registry_inv w ->
      registry_wf w
      /\ (forall params, registry_inv (snd (offer env params w)))
      /\ (forall c ev, registry_inv (snd (deliver env c ev w)))
      /\ (forall detection, registry_inv (snd (detect_objects env detection w)))
      /\ (fst (shutdown_event env w) = Ok tt ->
          registry_inv (snd (shutdown_event env w)))
      /\ registry_wf (snd (shutdown_event env w))).
Proof.
  split.
  - intros He c Hc. rewrite He in Hc. set_solver.
  - intros Hinv. split; [now apply registry_inv_wf |].
    split; [intros params; now apply offer_keeps_registry_inv |].
    split; [intros c ev; now apply deliver_keeps_registry_inv |].
    split; [| split].
    + intros detection c Hc.
      destruct (detect_objects_frame detection w) as (Hp & Hh).
      rewrite Hp in Hc.
      apply (observed_same_object w); [now rewrite Hh | now apply Hinv].
    + intros Hok c Hc. destruct (shutdown_event_frame w) as (_ & _ & He).
      rewrite (He Hok) in Hc. set_solver.
    + destruct (shutdown_event_frame w) as (Hd & Hp & _).
      pose proof (registry_inv_wf w Hinv) as Hwf.
      unfold registry_wf in *. rewrite Hd. destruct Hp as [-> | ->]; set_solver.
Qed.

Lemma offer_allocates (params : OfferModel) (w : World) :
  description_check (offer_sdp params) (offer_type params) = None ->
  is_Some (heap (snd (offer env params w)) !! fresh (dom (heap w))).
Proof.
  intros Hd. now destruct (offer_footprint env params w Hd) as (_ & _ & _ & Hs).
Qed.

(** X14: two calls of [offer] in a row create two different connections:
    with both descriptions accepted and no move to [failed] reported, the
    Registry ends with both new identities added and two more members. *)
Theorem two_offers_two_connections (p1 p2 : OfferModel) (w : World) :
  registry_inv w ->
  quiet_transport env ->
  description_check (offer_sdp p1) (offer_type p1) = None ->
  description_check (offer_sdp p2) (offer_type p2) = None ->
  let c1 := fresh (dom (heap w)) in
  let w1 := snd (offer env p1 w) in
  let c2 := fresh (dom (heap w1)) in
  let w2 := snd (offer env p2 w1) in
  c1 <> c2
  /\ pcs w2 = {[c2]} ∪ ({[c1]} ∪ pcs w)
  /\ size (pcs w2) = S (S (size (pcs w))).
Proof.
  intros Hinv Hq Hd1 Hd2. cbv zeta.
  set (c1 := fresh (dom (heap w))).
  set (w1 := snd (offer env p1 w)).
  set (c2 := fresh (dom (heap w1))).
  destruct (offer_footprint env p1 w Hd1) as (_ & _ & Hp1 & _).
  destruct (Hp1 Hq) as [Hp1' _]. clear Hp1. rename Hp1' into Hp1.
  destruct (offer_footprint env p2 w1 Hd2) as (_ & _ & Hp2 & _).
  destruct (Hp2 Hq) as [Hp2' _]. clear Hp2. rename Hp2' into Hp2.
  fold c1 w1 in Hp1. fold c2 in Hp2.
  pose proof (offer_keeps_registry_inv p1 w Hinv) as Hinv1. fold w1 in Hinv1.
  pose proof (fresh_not_registered w (registry_inv_wf w Hinv)) as Hf1. fold c1 in Hf1.
  pose proof (fresh_not_registered w1 (registry_inv_wf w1 Hinv1)) as Hf2. fold c2 in Hf2.
  rewrite Hp1 in Hf2.
  assert (Hne : c1 <> c2) by set_solver.
  split; [exact Hne |]. split; [now rewrite Hp2, Hp1 |].
  rewrite Hp2, Hp1.
  rewrite size_union by set_solver. rewrite size_union by set_solver.
  now rewrite !size_singleton.
Qed.

(** X15: registering and failing is a round trip on the Registry: after an
    accepted [offer] with no move to [failed] during the call, a move to
    [failed] of the new connection, with a close that returns, gives back
    the Registry the call started from, and the connection's close has been
    called once since. *)
Theorem offer_then_failed_restores_registry (params : OfferModel) (w : World) :
  registry_wf w ->
  quiet_transport env ->
  description_check (offer_sdp params) (offer_type params) = None ->
  close_t env (fresh (dom (heap w))) = None ->
  let c := fresh (dom (heap w)) in
  let w1 := snd (offer env params w) in
  let w2 := snd (deliver env c (ConnectionStateChange "failed") w1) in
  pcs w2 = pcs w /\ closes w2 = (closes w1 ++ [c])%list.
Proof.
  intros Hwf Hq Hd Hclose. cbv zeta.
  destruct (offer_footprint env params w Hd) as (_ & _ & Hq' & _).
  destruct (Hq' Hq) as [Hp (pc & Hpc & Ho1 & Ho2)].
  rewrite (deliver_state_change env _ _ pc "failed" Hpc Ho1). simpl.
  destruct (on_connectionstatechange_failed env
              (set_heap (<[fresh (dom (heap w)) := set_connectionState "failed" pc]>
                           (heap (snd (offer env params w))))
                        (snd (offer env params w)))
              (fresh (dom (heap w))) (set_connectionState "failed" pc))
    as (H1 & H2 & _).
  - simpl. apply lookup_insert_eq.
  - reflexivity.
  - rewrite Hclose in H2. simpl in H1, H2. rewrite H1, H2, Hp.
    pose proof (fresh_not_registered w Hwf). split; [set_solver | reflexivity].
Qed.

(** X16: a connection registered by [offer] is closed by the next
    [shutdown_event]: when every close returns, the shutdown after an
    accepted, undisturbed [offer] empties the Registry and its close calls
    are exactly those of the connections registered before the call and of
    the new one. *)
Theorem offer_then_shutdown_closes_it (params : OfferModel) (w : World) :
  quiet_transport env ->
  description_check (offer_sdp params) (offer_type params) = None ->
  (forall c, close_t env c = None) ->
  let c := fresh (dom (heap w)) in
  let w1 := snd (offer env params w) in
  let r := shutdown_event env w1 in
  fst r = Ok tt /\ pcs (snd r) = ∅
  /\ (forall c', c' ∈ drop (length (closes w1)) (closes (snd r))
                 <-> c' = c \/ c' ∈ pcs w).
Proof.
  intros Hq Hd Hclose. cbv zeta.
  destruct (offer_footprint env params w Hd) as (_ & _ & Hq' & _).
  destruct (Hq' Hq) as [Hp _].
  destruct (shutdown_event_returns env (snd (offer env params w))
              (fun c _ => Hclose c)) as (H1 & H2 & H3).
  split; [exact H1 |]. split; [exact H2 |].
  intros c'. rewrite H3, drop_app_length, elem_of_elements, Hp. set_solver.
Qed.

(** X17: a connection is not closed twice by teardown and shutdown
    together when its close returns: after a move to [failed] of a
    registered connection, [shutdown_event] does not call its close again;
    but when the close raised in the observer, the entry was kept and
    [shutdown_event] calls it a second time. *)
Theorem failed_then_shutdown_close_count
    (w : World) (c : nat) (pc : RTCPeerConnection) :
  heap w !! c = Some pc ->
  has_on_connectionstatechange pc = true ->
  c ∈ pcs w ->
  let w1 := snd (deliver env c (ConnectionStateChange "failed") w) in
  let w2 := snd (shutdown_event env w1) in
  (close_t env c = None ->
     count_occ Nat.eq_dec (closes w2) c = S (count_occ Nat.eq_dec (closes w) c))
  /\ (forall e, close_t env c = Some e ->
     count_occ Nat.eq_dec (closes w2) c = S (S (count_occ Nat.eq_dec (closes w) c))).
Proof.
  intros Hc Hobs Hin. cbv zeta.
  rewrite shutdown_event_closes.
  rewrite (deliver_state_change env w c pc "failed" Hc Hobs). simpl.
  destruct (on_connectionstatechange_failed env
              (set_heap (<[c := set_connectionState "failed" pc]> (heap w)) w)
              c (set_connectionState "failed" pc)) as (H1 & H2 & _).
  { simpl. apply lookup_insert_eq. }
  { reflexivity. }
  simpl in H1, H2. rewrite H1, !count_occ_app. simpl.
  destruct (Nat.eq_dec c c) as [_ | Hne]; [| contradiction].
  split.
  - intros Hclose. rewrite Hclose in H2. rewrite H2.
    assert (Hnone : count_occ Nat.eq_dec (elements (pcs w ∖ {[c]})) c = 0%nat).
    { apply count_occ_not_In.
      rewrite <- list_elem_of_In, elem_of_elements. set_solver. }
    rewrite Hnone. lia.
  - intros e Hclose. rewrite Hclose in H2. rewrite H2.
    assert (Hone : count_occ Nat.eq_dec (elements (pcs w)) c = 1%nat).
    { apply NoDup_count_occ'; [apply NoDup_ListNoDup, NoDup_elements |].
      rewrite <- list_elem_of_In, elem_of_elements. exact Hin. }
    rewrite Hone. lia.
Qed.

End Invariants.

Section NegotiationRuns.

Context {Frame Image ndarray RelayState Proxy : Type}.
Variable env : @Env Frame Image ndarray RelayState Proxy.

Local Abbreviation World := (@World ndarray RelayState Proxy).
Local Abbreviation RTCPeerConnection := (@RTCPeerConnection Proxy).

(** A delivery that does not tear the connection down. *)
Lemma deliver_open (c : nat) (ev : Event) (w : World) (pc : RTCPeerConnection) :
  heap w !! c = Some pc ->
  (is_failed ev = false \/ has_on_connectionstatechange pc = false
   \/ close_t env c <> None) ->
  exists w' pc',
    deliver env c ev w = (Ok tt, w') /\ heap w' !! c = Some pc'
    /\ evolved (if has_on_track pc && is_video ev then 1 else 0)%nat pc pc'.
Proof.
  intros Hc Hopen. unfold evolved. destruct ev as [t | s].
  - unfold deliver, bind, get_pc. rewrite Hc. simpl.
    destruct (has_on_track pc) eqn:Ht; simpl.
    + unfold on_track, bind, print. simpl.
      destruct (String.eqb (kind t) "video").
      * unfold subscribe, addTrack, update_pc, bind, get_pc. simpl.
        destruct (relay_subscribe env (relay w) t) as [p r']. simpl.
        rewrite Hc. simpl. eexists _, _. split; [reflexivity |].
        cbn [heap set_heap]. rewrite lookup_insert_eq. split; [reflexivity |].
        simpl. rewrite length_app. simpl. repeat split; auto.
      * eexists _, pc. split; [reflexivity |]. simpl. split; [exact Hc |].
        repeat split; auto; lia.
    + eexists _, pc. split; [reflexivity |]. split; [exact Hc |].
      repeat split; auto; lia.
  - rewrite andb_false_r.
    unfold deliver, update_pc, bind, get_pc. rewrite Hc. simpl.
    rewrite lookup_insert_eq. simpl.
    set (w1 := set_heap (<[c := set_connectionState s pc]> (heap w)) w).
    assert (Hc1 : heap w1 !! c = Some (set_connectionState s pc))
      by (simpl; apply lookup_insert_eq).
    destruct (has_on_connectionstatechange pc) eqn:Ho.
    + unfold as_task.
      assert (Hh : heap (snd (on_connectionstatechange env c w1)) = heap w1).
      { destruct (String.eqb_spec s "failed") as [-> | Hs].
        - destruct (on_connectionstatechange_failed env w1 c _ Hc1 eq_refl)
            as (_ & _ & Hh & _).
          destruct (close_t env c); [exact Hh |].
          destruct Hopen as [H | [H | H]]; [discriminate H | discriminate H | congruence].
        - now destruct (on_connectionstatechange_other env w1 c _ Hc1 Hs)
            as (_ & _ & Hh & _). }
      eexists _, _. split; [reflexivity |]. simpl. rewrite Hh.
      split; [exact Hc1 |]. simpl. repeat split; auto; lia.
    + eexists _, _. split; [reflexivity |]. split; [exact Hc1 |].
      simpl. repeat split; auto; lia.
Qed.

(** The delivery that tears the connection down: a move to "failed" seen
    by the observer, with a close that returns. *)
Lemma deliver_teardown (c : nat) (w : World) (pc : RTCPeerConnection) :
  heap w !! c = Some pc ->
  has_on_connectionstatechange pc = true ->
  close_t env c = None ->
  exists w',
    deliver env c (ConnectionStateChange "failed") w = (Ok tt, w')
    /\ heap w' !! c = Some (closed_pc (set_connectionState "failed" pc)).
Proof.
  intros Hc Ho Hclose.
  rewrite (deliver_state_change env w c pc "failed" Hc Ho).
  eexists. split; [reflexivity |].
  destruct (on_connectionstatechange_failed env
              (set_heap (<[c := set_connectionState "failed" pc]> (heap w)) w)
              c (set_connectionState "failed" pc)) as (_ & _ & Hh & _).
  - simpl. apply lookup_insert_eq.
  - reflexivity.
  - rewrite Hclose in Hh. cbn zeta in Hh. rewrite Hh. apply lookup_insert_eq.
Qed.

Lemma is_failed_inv (ev : Event) :
  is_failed ev = true -> ev = ConnectionStateChange "failed".
Proof.
  destruct ev as [t | s]; simpl; [discriminate |].
  intros H. apply String.eqb_eq in H. now subst.
Qed.

(** No delivery raises, and none touches the descriptions. *)
Lemma deliver_returns (c : nat) (ev : Event) (w : World) (pc : RTCPeerConnection) :
  heap w !! c = Some pc ->
  exists w' pc',
    deliver env c ev w = (Ok tt, w') /\ heap w' !! c = Some pc'
    /\ remoteDescription pc' = remoteDescription pc
    /\ localDescription pc' = localDescription pc.
Proof.
  intros Hc.
  destruct (is_failed ev) eqn:Ef;
    [destruct (has_on_connectionstatechange pc) eqn:Eo;
       [destruct (close_t env c) eqn:Ec |] |].
  - destruct (deliver_open c ev w pc Hc) as (w' & pc' & E & Hc' & R & L & _);
      [right; right; congruence | eauto 10].
  - apply is_failed_inv in Ef. subst ev.
    destruct (deliver_teardown c w pc Hc Eo Ec) as (w' & E & Hc'). eauto 10.
  - destruct (deliver_open c ev w pc Hc) as (w' & pc' & E & Hc' & R & L & _);
      [auto | eauto 10].
  - destruct (deliver_open c ev w pc Hc) as (w' & pc' & E & Hc' & R & L & _);
      [auto | eauto 10].
Qed.

Lemma deliver_all_returns (c : nat) (evs : list Event) :
  forall (w : World) (pc : RTCPeerConnection),
    heap w !! c = Some pc ->
    exists w' pc',
      deliver_all env c evs w = (Ok tt, w') /\ heap w' !! c = Some pc'
      /\ remoteDescription pc' = remoteDescription pc
      /\ localDescription pc' = localDescription pc.
Proof.
  induction evs as [| ev evs IH]; intros w pc Hc.
  - exists w, pc. auto.
  - destruct (deliver_returns c ev w pc Hc) as (w1 & pc1 & E1 & Hc1 & R1 & L1).
    destruct (IH w1 pc1 Hc1) as (w2 & pc2 & E2 & Hc2 & R2 & L2).
    exists w2, pc2. simpl. unfold bind. rewrite E1, E2.
    repeat split; [exact Hc2 | congruence | congruence].
Qed.

(** Once the listeners are gone, events change no outbound track. *)
Lemma deliver_all_unobserved (c : nat) (evs : list Event) :
  forall (w : World) (pc : RTCPeerConnection),
    heap w !! c = Some pc ->
    has_on_connectionstatechange pc = false ->
    has_on_track pc = false ->
    exists w' pc',
      deliver_all env c evs w = (Ok tt, w') /\ heap w' !! c = Some pc'
      /\ length (senders pc') = length (senders pc).
Proof.
  induction evs as [| ev evs IH]; intros w pc Hc Ho Ht.
  - exists w, pc. auto.
  - destruct (deliver_open c ev w pc Hc) as (w1 & pc1 & E1 & Hc1 & Hev); [auto |].
    destruct Hev as (_ & _ & F1 & F2 & Hlen). rewrite Ht in Hlen. simpl in Hlen.
    rewrite Ho in F1. rewrite Ht in F2.
    destruct (IH w1 pc1 Hc1 F1 F2) as (w2 & pc2 & E2 & Hc2 & Hlen2).
    exists w2, pc2. simpl. unfold bind. rewrite E1, E2.
    repeat split; [exact Hc2 | lia].
Qed.

Lemma deliver_all_wires (c : nat) (evs : list Event) :
  (close_t env c = None \/ no_failed evs = true) ->
  forall (w : World) (pc : RTCPeerConnection),
    heap w !! c = Some pc ->
    has_on_connectionstatechange pc = true ->
    has_on_track pc = true ->
    exists w' pc',
      deliver_all env c evs w = (Ok tt, w') /\ heap w' !! c = Some pc'
      /\ length (senders pc') = (length (senders pc) + video_before_failed evs)%nat.
Proof.
  induction evs as [| ev evs IH]; intros Hcase w pc Hc Ho Ht.
  - exists w, pc. simpl. repeat split; auto; lia.
  - destruct (is_failed ev) eqn:Ef.
    + assert (Hclose : close_t env c = None).
      { destruct Hcase as [H | H]; [exact H |]. simpl in H. rewrite Ef in H. discriminate. }
      apply is_failed_inv in Ef. subst ev.
      destruct (deliver_teardown c w pc Hc Ho Hclose) as (w1 & E1 & Hc1).
      destruct (deliver_all_unobserved c evs w1 _ Hc1 eq_refl eq_refl)
        as (w2 & pc2 & E2 & Hc2 & Hlen).
      exists w2, pc2. cbn [deliver_all]. unfold bind. rewrite E1, E2.
      split; [reflexivity |]. split; [exact Hc2 |].
      simpl in Hlen |- *. lia.
    + destruct (deliver_open c ev w pc Hc) as (w1 & pc1 & E1 & Hc1 & Hev); [auto |].
      destruct Hev as (_ & _ & F1 & F2 & Hlen). rewrite Ht in Hlen. simpl in Hlen.
      rewrite Ho in F1. rewrite Ht in F2.
      assert (Hcase' : close_t env c = None \/ no_failed evs = true).
      { destruct Hcase as [H | H]; [now left | right].
        simpl in H. now apply andb_prop in H as [_ H]. }
      destruct (IH Hcase' w1 pc1 Hc1 F1 F2) as (w2 & pc2 & E2 & Hc2 & Hlen2).
      exists w2, pc2. cbn [deliver_all]. unfold bind. rewrite E1, E2.
      split; [reflexivity |]. split; [exact Hc2 |].
      rewrite Hlen2, Hlen. destruct ev as [t | s]; simpl in *.
      * destruct (String.eqb (kind t) "video"); lia.
      * rewrite Ef. lia.
Qed.

(** X18: while a connection is open the observers wire one outbound track
    per arriving video track and nothing else. For a connection with both
    observers attached on which close has not been called, and a sequence
    of events in which no move to "failed" occurs, or whose close returns,
    the number of outbound tracks grows by the number of tracks of kind
    "video" that arrive before the first move to "failed"; tracks of other
    kinds, other state changes and everything after a teardown add none,
    and no delivery raises. *)
Theorem one_outbound_track_per_video_track
    (c : nat) (evs : list Event) (w : World) (pc : RTCPeerConnection) :
  heap w !! c = Some pc ->
  has_on_connectionstatechange pc = true ->
  has_on_track pc = true ->
  c ∉ closes w ->
  (close_t env c = None \/ no_failed evs = true) ->
  fst (deliver_all env c evs w) = Ok tt
  /\ length (senders_of (snd (deliver_all env c evs w)) c)
     = (length (senders_of w c) + video_before_failed evs)%nat
  /\ (no_failed evs = true ->
      video_before_failed evs = length (List.filter is_video evs)).
Proof.
  intros Hc Ho Ht _ Hcase.
  destruct (deliver_all_wires c evs Hcase w pc Hc Ho Ht) as (w' & pc' & E & Hc' & Hlen).
  rewrite E. simpl. split; [reflexivity |]. split.
  - unfold senders_of. now rewrite Hc, Hc'.
  - clear. induction evs as [| ev evs IH]; [reflexivity |].
    simpl. destruct ev as [t | s]; simpl.
    + intros H. rewrite (IH H). destruct (String.eqb (kind t) "video"); reflexivity.
    + destruct (String.eqb s "failed"); [discriminate |]. exact IH.
Qed.

Lemma run_setRemoteDescription
    (c : nat) (d kept : RTCSessionDescription) (evs : list Event)
    (w : World) (pc : RTCPeerConnection) :
  setRemoteDescription_t env d = (evs, Ok kept) ->
  heap w !! c = Some pc ->
  exists w' pc',
    setRemoteDescription env c d w = (Ok tt, w') /\ heap w' !! c = Some pc'
    /\ remoteDescription pc' = Some kept /\ localDescription pc' = localDescription pc.
Proof.
  intros Ht Hc. unfold setRemoteDescription. rewrite Ht. unfold bind.
  destruct (deliver_all_returns c evs w pc Hc) as (w1 & pc1 & E1 & Hc1 & _ & L).
  rewrite E1. unfold lift, update_pc, bind, get_pc. rewrite Hc1.
  eexists _, _. split; [reflexivity |]. cbn [heap set_heap].
  rewrite lookup_insert_eq. split; [reflexivity |]. auto.
Qed.

Lemma run_createAnswer
    (c : nat) (evs : list Event) (answer : RTCSessionDescription)
    (w : World) (pc : RTCPeerConnection) :
  heap w !! c = Some pc ->
  createAnswer_t env (remoteDescription pc) = (evs, Ok answer) ->
  exists w' pc',
    createAnswer env c w = (Ok answer, w') /\ heap w' !! c = Some pc'
    /\ remoteDescription pc' = remoteDescription pc
    /\ localDescription pc' = localDescription pc.
Proof.
  intros Hc Ht. unfold createAnswer, bind, get_pc. rewrite Hc, Ht.
  destruct (deliver_all_returns c evs w pc Hc) as (w1 & pc1 & E1 & Hc1 & R & L).
  rewrite E1. unfold lift. exists w1, pc1. auto.
Qed.

Lemma run_setLocalDescription
    (c : nat) (answer ld : RTCSessionDescription) (evs : list Event)
    (w : World) (pc : RTCPeerConnection) :
  setLocalDescription_t env answer = (evs, Ok ld) ->
  heap w !! c = Some pc ->
  exists w' pc',
    setLocalDescription env c answer w = (Ok tt, w') /\ heap w' !! c = Some pc'
    /\ remoteDescription pc' = remoteDescription pc /\ localDescription pc' = Some ld.
Proof.
  intros Ht Hc. unfold setLocalDescription. rewrite Ht. unfold bind.
  destruct (deliver_all_returns c evs w pc Hc) as (w1 & pc1 & E1 & Hc1 & R & _).
  rewrite E1. unfold lift, update_pc, bind, get_pc. rewrite Hc1.
  eexists _, _. split; [reflexivity |]. cbn [heap set_heap].
  rewrite lookup_insert_eq. split; [reflexivity |]. auto.
Qed.

(** X19: when the type is accepted and the three negotiation steps return,
    [offer] answers with the sdp and type of the local description that
    [setLocalDescription] put in place, which is then the connection's
    local description; the answer is the one created from the remote
    description the transport kept. This holds whatever events arrive
    during the steps. *)
Theorem offer_returns_local_description
    (params : OfferModel) (w : World)
    (evs1 evs2 evs3 : list Event) (kept answer ld : RTCSessionDescription) :
  let d := {| sdp := offer_sdp params; type := offer_type params |} in
  let c := fresh (dom (heap w)) in
  description_check (offer_sdp params) (offer_type params) = None ->
  setRemoteDescription_t env d = (evs1, Ok kept) ->
  createAnswer_t env (Some kept) = (evs2, Ok answer) ->
  setLocalDescription_t env answer = (evs3, Ok ld) ->
  fst (offer env params w) = Ok {| sdp := sdp ld; type := type ld |}
  /\ local_of (snd (offer env params w)) c = Some ld.
Proof.
  cbv zeta. intros Hd H1 H2 H3.
  destruct (offer_prologue_frame env params w Hd) as (w4 & -> & Hh & _).
  assert (Hc4 : heap w4 !! fresh (dom (heap w))
                = Some (attach_on_track (attach_on_connectionstatechange new_pc)))
    by (rewrite Hh; apply lookup_insert_eq).
  destruct (run_setRemoteDescription _ _ _ _ _ _ H1 Hc4)
    as (w6 & pc6 & E6 & Hc6 & R6 & _).
  rewrite <- R6 in H2.
  destruct (run_createAnswer _ _ _ _ _ Hc6 H2) as (w7 & pc7 & E7 & Hc7 & R7 & _).
  destruct (run_setLocalDescription _ _ _ _ _ _ H3 Hc7)
    as (w9 & pc9 & E9 & Hc9 & R9 & L9).
  unfold negotiate, bind. rewrite E6, E7, E9.
  unfold get_pc. rewrite Hc9, L9. unfold ret. cbn [fst snd].
  split; [reflexivity |].
  unfold local_of. now rewrite Hc9.
Qed.

(** X20: the [transform] a pass-through track was built with is never
    consulted: two tracks around the same subscription deliver the same
    frames and errors whatever their [transform], and [recv] hands the
    value on unchanged. *)
Theorem transform_never_consulted
    (n : nat) (p : Proxy) (transform1 transform2 : string) :
  recv_n env n {| vt_track := p; vt_transform := transform1 |}
  = recv_n env n {| vt_track := p; vt_transform := transform2 |}
  /\ vt_transform (snd (recv env {| vt_track := p; vt_transform := transform1 |}))
     = transform1.
Proof.
  split; [now rewrite !recv_n_passes_frames |].
  now destruct (recv_passes_frame env {| vt_track := p; vt_transform := transform1 |})
    as (_ & _ & H).
Qed.

End NegotiationRuns.

(** * Concrete runs of the further properties *)


Lemma socket_closed_exactly_once_witness :
  Net.count_ev Net.is_new (snd (Net.get_local_ip Demo.offline_net)) = 1%nat
  /\ Net.count_ev Net.is_close (snd (Net.get_local_ip Demo.offline_net)) = 1%nat
  /\ last (List.filter Net.is_sock (snd (Net.get_local_ip Demo.offline_net)))
     = Some Net.SockClose.
Proof.
  apply (proj1 (socket_closed_exactly_once Demo.offline_net)); reflexivity.
Defined.

Lemma probe_failure_gives_localhost_witness :
  fst (Net.get_local_ip Demo.offline_net) = Some "localhost".
Proof.
  apply (probe_failure_gives_localhost Demo.offline_net); [reflexivity |].
  right. left. discriminate.
Defined.

Example host_ip_wins :
  Net.get_local_ip Demo.compose_net
  = (Some "192.168.1.20", [Net.Print "Using HOST_IP from environment: 192.168.1.20"]).
Proof. reflexivity. Qed.

Example network_info_urls :
  Net.phone_url (fst (Net.get_network_info Demo.docker_net))
  = "https://10.71.252.230:3443/phone"
  /\ Net.localhost_url (fst (Net.get_network_info Demo.docker_net))
     = "http://localhost:3000".
Proof. split; vm_compute; reflexivity. Qed.

Lemma any_media_type_prefix_is_stripped_witness :
  strip_data_uri ("data:image/jpeg;" +:+ "base64," +:+ "AAAA") = Ok "AAAA".
Proof.
  apply (any_media_type_prefix_is_stripped Demo.demo_env "data:image/jpeg;" "AAAA"
           [] Demo.world0).
  - simpl. intros H. repeat (destruct H as [H | H]; [discriminate |]). exact H.
  - reflexivity.
Defined.

Lemma returned_detections_well_formed_witness :
  Forall well_formed_item
    [ {| label := "dog"; score := 0.5%float; box := [1%float; 2%float; 3%float; 4%float] |} ].
Proof.
  apply (returned_detections_well_formed Demo.demo_env
           {| image := "AAAA"; queries := [] |} Demo.world0).
  vm_compute. reflexivity.
Defined.

Lemma detect_succeeds_iff_indexable_witness :
  fst (detect_objects Demo.demo_env {| image := "AAAA"; queries := [] |}
         Demo.world_last_class)
  = Detections [ {| label := "toothbrush"; score := 0.5%float;
                    box := [1%float; 2%float; 3%float; 4%float] |} ].
Proof.
  apply (proj1 (detect_succeeds_iff_indexable Demo.demo_env
                  {| image := "AAAA"; queries := [] |} Demo.world_last_class
                  "AAAA" "AAAA" "AAAA" (fun _ _ _ => Ok Demo.last_class_boxes)
                  Demo.last_class_boxes eq_refl eq_refl eq_refl eq_refl eq_refl)).
  repeat constructor; unfold indexable; simpl; lia.
Defined.

Lemma no_engine_no_detections_witness :
  fst (detect_objects Demo.demo_env {| image := "AAAA"; queries := [] |}
         Demo.world_no_engine)
  = JSONResponse 500 "'NoneType' object is not callable".
Proof.
  apply (proj2 (no_engine_no_detections Demo.demo_env
                  {| image := "AAAA"; queries := [] |} Demo.world_no_engine eq_refl)
           "AAAA" "AAAA" "AAAA"); reflexivity.
Defined.

Lemma detection_independent_of_signaling_state_witness :
  fst (detect_objects Demo.demo_env {| image := "AAAA"; queries := [] |} Demo.world0)
  = fst (detect_objects Demo.demo_env {| image := "AAAA"; queries := [] |} Demo.world2).
Proof.
  apply (detection_independent_of_signaling_state Demo.demo_env
           {| image := "AAAA"; queries := [] |} Demo.world0 Demo.world2).
  reflexivity.
Defined.

Lemma fresh_in_world2 : fresh (dom (heap Demo.world2)) = 3%nat.
Proof. vm_compute. reflexivity. Qed.

Lemma offer_leaves_other_connections_witness :
  let w' := snd (offer Demo.demo_env {| offer_sdp := "v=0"; offer_type := "offer" |}
                   Demo.world2) in
  heap w' !! 0%nat = heap Demo.world2 !! 0%nat
  /\ (0%nat ∈ pcs w' <-> 0%nat ∈ pcs Demo.world2)
  /\ model w' = model Demo.world2.
Proof.
  cbv zeta.
  apply (offer_leaves_other_connections Demo.demo_env
           {| offer_sdp := "v=0"; offer_type := "offer" |} Demo.world2 0).
  intros H. pose proof fresh_in_world2 as F. rewrite <- H in F. discriminate F.
Defined.

Lemma world2_inv : registry_inv Demo.world2.
Proof.
  intros c Hc.
  assert (Hc' : c = 0%nat \/ c = 2%nat) by (simpl in Hc; set_solver).
  destruct Hc' as [-> | ->]; exists Demo.observed_pc; repeat split.
Qed.

Lemma registered_connections_stay_observed_witness :
  registry_inv
    (snd (deliver Demo.demo_env 0 (ConnectionStateChange "failed") Demo.world2))
  /\ registry_inv
       (snd (offer Demo.demo_env {| offer_sdp := "v=0"; offer_type := "offer" |}
               Demo.world2)).
Proof.
  pose proof (proj2 (registered_connections_stay_observed Demo.demo_env Demo.world2)
                world2_inv) as (_ & Hoffer & Hdeliver & _).
  split; [apply Hdeliver | apply Hoffer].
Defined.

Example raising_shutdown_leaves_closed_connection_registered :
  let w1 := snd (shutdown_event Demo.demo_env Demo.world3) in
  fst (shutdown_event Demo.demo_env Demo.world3) = Raise Demo.close_failed
  /\ pcs w1 = pcs Demo.world3
  /\ heap w1 !! 0%nat = Some (closed_pc Demo.observed_pc)
  /\ heap w1 !! 1%nat = Some Demo.observed_pc.
Proof. cbv zeta. repeat split; vm_compute; reflexivity. Qed.

Lemma world0_inv : registry_inv Demo.world0.
Proof. intros c Hc. simpl in Hc. set_solver. Qed.

Lemma two_offers_two_connections_witness :
  let p := {| offer_sdp := "v=0"; offer_type := "offer" |} in
  let w1 := snd (offer Demo.demo_env p Demo.world0) in
  size (pcs (snd (offer Demo.demo_env p w1))) = S (S (size (pcs Demo.world0))).
Proof.
  cbv zeta.
  apply (two_offers_two_connections Demo.demo_env
           {| offer_sdp := "v=0"; offer_type := "offer" |}
           {| offer_sdp := "v=0"; offer_type := "offer" |} Demo.world0).
  - exact world0_inv.
  - exact demo_env_quiet.
  - reflexivity.
  - reflexivity.
Defined.

Lemma offer_then_failed_restores_registry_witness :
  let p := {| offer_sdp := "v=0"; offer_type := "offer" |} in
  let w1 := snd (offer Demo.demo_env p Demo.world0) in
  pcs (snd (deliver Demo.demo_env (fresh (dom (heap Demo.world0)))
              (ConnectionStateChange "failed") w1))
  = pcs Demo.world0.
Proof.
  cbv zeta.
  apply (offer_then_failed_restores_registry Demo.demo_env
           {| offer_sdp := "v=0"; offer_type := "offer" |} Demo.world0).
  - exact world0_wf.
  - exact demo_env_quiet.
  - reflexivity.
  - vm_compute. reflexivity.
Defined.

Lemma calm_env_quiet : quiet_transport Demo.calm_env.
Proof.
  repeat split; intros d; simpl; try reflexivity.
  destruct (String.eqb (type d) "offer"); [| reflexivity].
  destruct (String.eqb (sdp d) ""); reflexivity.
Qed.

Lemma offer_then_shutdown_closes_it_witness :
  let p := {| offer_sdp := "v=0"; offer_type := "offer" |} in
  let w1 := snd (offer Demo.calm_env p Demo.world2) in
  fst (shutdown_event Demo.calm_env w1) = Ok tt
  /\ pcs (snd (shutdown_event Demo.calm_env w1)) = ∅.
Proof.
  cbv zeta.
  pose proof (offer_then_shutdown_closes_it Demo.calm_env
                {| offer_sdp := "v=0"; offer_type := "offer" |} Demo.world2
                calm_env_quiet eq_refl (fun _ => eq_refl)) as H.
  cbv zeta in H. destruct H as (H1 & H2 & _). split; [exact H1 | exact H2].
Defined.

Lemma zero_in_world2 : 0%nat ∈ pcs Demo.world2.
Proof. apply (bool_decide_unpack (0%nat ∈ pcs Demo.world2)). vm_compute. exact I. Qed.

Lemma failed_then_shutdown_close_count_witness :
  let w1 := snd (deliver Demo.demo_env 0 (ConnectionStateChange "failed") Demo.world2) in
  count_occ Nat.eq_dec (closes (snd (shutdown_event Demo.demo_env w1))) 0%nat
  = S (count_occ Nat.eq_dec (closes Demo.world2) 0%nat).
Proof.
  cbv zeta.
  apply (proj1 (failed_then_shutdown_close_count Demo.demo_env Demo.world2 0
                  Demo.observed_pc eq_refl eq_refl zero_in_world2)).
  reflexivity.
Defined.

Lemma one_outbound_track_per_video_track_witness :
  let evs := [TrackEvent {| track_id := 4; kind := "video" |};
              TrackEvent {| track_id := 5; kind := "audio" |};
              ConnectionStateChange "connected";
              TrackEvent {| track_id := 6; kind := "video" |};
              ConnectionStateChange "failed";
              TrackEvent {| track_id := 7; kind := "video" |}] in
  length (senders_of (snd (deliver_all Demo.demo_env 0 evs Demo.world2)) 0)
  = (length (senders_of Demo.world2 0) + 2)%nat.
Proof.
  cbv zeta.
  apply (one_outbound_track_per_video_track Demo.demo_env 0
           [TrackEvent {| track_id := 4; kind := "video" |};
            TrackEvent {| track_id := 5; kind := "audio" |};
            ConnectionStateChange "connected";
            TrackEvent {| track_id := 6; kind := "video" |};
            ConnectionStateChange "failed";
            TrackEvent {| track_id := 7; kind := "video" |}]
           Demo.world2 Demo.observed_pc eq_refl eq_refl eq_refl).
  - apply not_elem_of_nil.
  - left. reflexivity.
Defined.

Lemma offer_returns_local_description_witness :
  fst (offer Demo.demo_env {| offer_sdp := "v=0"; offer_type := "offer" |} Demo.world0)
  = Ok {| sdp := "v=0"; type := "answer" |}.
Proof.
  apply (offer_returns_local_description Demo.demo_env
           {| offer_sdp := "v=0"; offer_type := "offer" |} Demo.world0
           [TrackEvent {| track_id := 4; kind := "video" |}] []
           [ConnectionStateChange "connecting"]
           {| sdp := "v=0a=setup:actpass"; type := "offer" |}
           {| sdp := "v=0"; type := "answer" |} {| sdp := "v=0"; type := "answer" |});
    reflexivity.
Defined.
